(** * rospo: tunnel endpoints, embedded SSH server and SSH connection manager

    A shallow embedding of the Go sources [tun/endpoint.go], package [sshd]
    (the embedded server) and package [sshc] (the connection manager with its
    host-key verifier and auth provider), followed by the properties the
    specification states about them.

    Conventions:
    - Go byte slices and Go strings are both [string] (a sequence of 8-bit
      characters); the conversion [string(b)] is the identity.
    - Go's [int] and [time.Duration] are [Z].
    - A Go [map[string]bool] is a [gmap string bool]; reading a missing key
      gives [false], the zero value.
    - Results of network and terminal operations are inputs to the step
      functions; pure functions of third-party packages are section
      variables; [knownhosts] and the file system are small models.
    - [log.Fatal*] ends the process and [panic] unwinds it: both are
      outcomes of the function that reaches them.
    - Mutex-protected regions and atomic loads and stores are single steps;
      goroutines interleave between steps. *)

From Stdlib Require Import ZArith List String Ascii Lia Bool Sorted.
From Stdlib Require Import DecimalString DecimalPos DecimalZ.
From stdpp Require Import base option gmap strings list.

Import ListNotations.
Local Open Scope Z_scope.

(** ** Outcomes of fallible Go code *)

(** How a call ends: a normal return, a [panic], a [log.Fatal] (process
    exit), or exhaustion of the recursion bound of a modelled loop. *)
Inductive outcome (A : Type) : Type :=
| Returned (a : A)
| Panicked
| FatalExit
| OutOfFuel.
Arguments Returned {A} a.
Arguments Panicked {A}.
Arguments FatalExit {A}.
Arguments OutOfFuel {A}.

(** The double-quote character, for [%q]. *)
Definition dquote : string := String (ascii_of_nat 34) EmptyString.

(* ================================================================== *)
(** ** Types of golang.org/x/crypto/ssh seen by the code *)
(* ================================================================== *)

Module ssh.

(** [ssh.PublicKey] through the two methods the code calls: [Type()] and
    [Marshal()] (the wire format). *)
Record PublicKey := {
  KeyType : string;
  Marshal : string
}.

(** [ssh.Signer], by the public key it signs for. *)
Record Signer := {
  SignerKey : PublicKey
}.

(** [ssh.AuthMethod]: the three constructors the client uses. *)
Inductive AuthMethod :=
| PublicKeys (signer : Signer)
| Password (secret : string)
| PasswordCallback (prompt : list string).

(** [*ssh.Request]: a global (out-of-band) request. *)
Record Request := {
  Type_ : string;
  WantReply : bool;
  Payload : string
}.

(** [*ssh.ServerConn]: an established server-side connection. *)
Record ServerConn := {
  connId : nat;
  connRemoteAddr : string
}.

(** [ssh.ConnMetadata], through [RemoteAddr()] and [User()]. *)
Record ConnMetadata := {
  RemoteAddr : string;
  User : string
}.

(** [*ssh.Permissions]; only [Extensions] is ever set. *)
Record Permissions := {
  Extensions : gmap string string
}.

(** [*ssh.Client]: a handle, and whether [Close()] was called on it. *)
Record Client := {
  clientId : nat;
  closed : bool
}.

End ssh.

Global Instance PublicKey_eq_dec : EqDecision ssh.PublicKey.
Proof. solve_decision. Defined.

Global Instance ServerConn_eq_dec : EqDecision ssh.ServerConn.
Proof. solve_decision. Defined.

(* ================================================================== *)
(** ** Package utils: the URI parser *)
(* ================================================================== *)

Module utils.

(** The value [utils.ParseSSHUrl] returns; [NewEndpoint] reads [Host] and
    [Port], [NewSshConnection] reads [Username]. *)
Record sshUrl := {
  Username : string;
  Host : string;
  Port : Z
}.

(** [split_at c s]: the text before and after the first [c] of [s]. *)
Fixpoint split_at (c : ascii) (s : string) : option (string * string) :=
  match s with
  | EmptyString => None
  | String a t =>
      if Ascii.eqb a c then Some (EmptyString, t)
      else match split_at c t with
           | Some (l, r) => Some (String a l, r)
           | None => None
           end
  end.

(** [strip_prefix p s]: [s] without its prefix [p], if [p] is one. *)
Fixpoint strip_prefix (p s : string) : option string :=
  match p with
  | EmptyString => Some s
  | String a p' =>
      match s with
      | EmptyString => None
      | String b s' => if Ascii.eqb a b then strip_prefix p' s' else None
      end
  end.

(** A port in decimal, between 0 and 65535. *)
Definition parse_port (txt : string) : option Z :=
  match NilZero.int_of_string txt with
  | Some d =>
      let p := Z.of_int d in
      if (0 <=? p) && (p <=? 65535) then Some p else None
  | None => None
  end.

(** Modelled from the spec: utils.ParseSSHUrl, whose source is not part of
    the files at hand.  The specification (4.1) says it accepts
    [user@host:port], [host:port] and [host], with an optional [ssh://]
    scheme; extracts the optional username, the host, and the port with
    default 22; and rejects malformed input.  [None] is the rejection; the
    username of an input without [user@] is the empty string here. *)
Definition ParseSSHUrl (s : string) : option sshUrl :=
  let s1 := match strip_prefix "ssh://" s with Some r => r | None => s end in
  let '(user, hostport) :=
    match split_at "@"%char s1 with
    | Some (u, r) => (u, r)
    | None => (EmptyString, s1)
    end in
  let hp :=
    match split_at ":"%char hostport with
    | Some (h, p) => option_map (fun n => (h, n)) (parse_port p)
    | None => Some (hostport, 22)
    end in
  match hp with
  | Some (h, n) =>
      if String.eqb h EmptyString then None
      else Some {| Username := user; Host := h; Port := n |}
  | None => None
  end.

End utils.

(* ================================================================== *)
(** ** Package tun: endpoints *)
(* ================================================================== *)

Module tun.

(** [Endpoint] holds the tunnel endpoint details. *)
Record Endpoint := {
  Host : string;
  Port : Z
}.

(** [fmt.Sprintf("%d", n)] for a Go [int]. *)
Definition fmt_d (n : Z) : string := NilZero.string_of_int (Z.to_int n).

(** [NewEndpoint].  The Go code dereferences what [ParseSSHUrl] returns
    without a check, so a rejected input gives no endpoint. *)
Definition NewEndpoint (s : string) : option Endpoint :=
  match utils.ParseSSHUrl s with
  | Some parsed => Some {| Host := utils.Host parsed; Port := utils.Port parsed |}
  | None => None
  end.

(** [Endpoint.String]: [fmt.Sprintf("%s:%d", endpoint.Host, endpoint.Port)]. *)
Definition String_ (endpoint : Endpoint) : string :=
  Host endpoint +:+ ":" +:+ fmt_d (Port endpoint).

(** The endpoints of the data model: a non-empty host name or IPv4 address
    (no [@], [:] inside) and a 16-bit port. *)
Definition no_char (c : ascii) (s : string) : Prop :=
  ~ In c (list_ascii_of_string s).

Definition is_digit (a : ascii) : bool :=
  (48 <=? nat_of_ascii a)%nat && (nat_of_ascii a <=? 57)%nat.

Definition colon : ascii := ":"%char.

Definition valid (e : Endpoint) : Prop :=
  Host e <> EmptyString /\ no_char "@"%char (Host e) /\ no_char ":"%char (Host e) /\
  0 <= Port e <= 65535.

End tun.

(* ================================================================== *)
(** ** Package sshd: the embedded SSH server *)
(* ================================================================== *)

Module sshd.

(** [SshServer].  [client] is the nil-able [*ssh.ServerConn] field. *)
Record SshServer := {
  authorizedKeysMap : gmap string bool;
  client : option ssh.ServerConn;
  tcpPort : string
}.

(** What the server does that a peer or an operator can observe.
    - [EvForward req c]: the call [handleTcpIpForward(req, c)]; the body of
      that function is in another file of the package;
    - [EvLogRequest req]: the line
      [log.Printf("[SSHD] recieved out-of-band request: %+v", req)];
    - [EvReply req ok]: a call [req.Reply(ok, nil)];
    - [EvLogConnection c]: [log.Println("[SSHD] Connection from", ...)];
    - [EvLogError]: [log.Println(err)] after a failed handshake. *)
Inductive Event :=
| EvForward (req : ssh.Request) (c : option ssh.ServerConn)
| EvLogRequest (req : ssh.Request)
| EvReply (req : ssh.Request) (ok : bool)
| EvLogConnection (c : ssh.ServerConn)
| EvLogError.

Section Server.

(** Functions of golang.org/x/crypto/ssh. *)
Variable FingerprintSHA256 : ssh.PublicKey -> string.
(** [ssh.ParseAuthorizedKey]: the first key of the input and the bytes after
    it, or [None] for its error return. *)
Variable ParseAuthorizedKey : string -> option (ssh.PublicKey * string).
Variable ParsePrivateKey : string -> option ssh.Signer.

(** The loop
    [for len(authorizedKeysBytes) > 0 { ...; authorizedKeysBytes = rest }]
    of [NewSshServer]. *)
Fixpoint loadAuthorizedKeys (fuel : nat) (authorizedKeysBytes : string)
         (authorizedKeysMap : gmap string bool)
  : outcome (gmap string bool) :=
  if (0 <? String.length authorizedKeysBytes)%nat then
    match fuel with
    | O => OutOfFuel
    | S fuel' =>
        match ParseAuthorizedKey authorizedKeysBytes with
        | None => FatalExit
        | Some (pubKey, rest) =>
            loadAuthorizedKeys fuel' rest
              (<[ssh.Marshal pubKey := true]> authorizedKeysMap)
        end
    end
  else Returned authorizedKeysMap.

(** [NewSshServer].  The two [ioutil.ReadFile] results are arguments
    ([None] is a read error); the package variable [hostPrivateKeySigner]
    is returned next to the server. *)
Definition NewSshServer (identity authorizedKeys : option string)
           (tcpPort : string) : outcome (SshServer * ssh.Signer) :=
  match identity with
  | None => Panicked
  | Some hostPrivateKey =>
      match authorizedKeys with
      | None => FatalExit
      | Some authorizedKeysBytes =>
          match loadAuthorizedKeys (String.length authorizedKeysBytes)
                  authorizedKeysBytes ∅ with
          | Returned authorizedKeysMap =>
              match ParsePrivateKey hostPrivateKey with
              | None => Panicked
              | Some signer =>
                  Returned ({| authorizedKeysMap := authorizedKeysMap;
                               client := None;
                               tcpPort := tcpPort |}, signer)
              end
          | Panicked => Panicked
          | FatalExit => FatalExit
          | OutOfFuel => OutOfFuel
          end
      end
  end.

(** Reading a Go [map[string]bool]. *)
Definition map_get (m : gmap string bool) (k : string) : bool :=
  default false (m !! k).

(** [keyAuth]: the line it logs, then the permissions or the error text. *)
Definition keyAuth (s : SshServer) (conn : ssh.ConnMetadata)
           (pubKey : ssh.PublicKey) : string * (ssh.Permissions + string) :=
  (ssh.RemoteAddr conn +:+ " authenticate with " +:+ ssh.KeyType pubKey,
   if map_get (authorizedKeysMap s) (ssh.Marshal pubKey) then
     inl {| ssh.Extensions := {[ "pubkey-fp" := FingerprintSHA256 pubKey ]} |}
   else
     inr ("unknown public key for " +:+ dquote +:+ ssh.User conn +:+ dquote)).

End Server.

(** Every entry of the map is [true], as every entry the loading loop
    writes is. *)
Definition all_true (m : gmap string bool) : Prop :=
  forall k v, m !! k = Some v -> v = true.

(** One iteration of the loop of [handleRequests]; [s.client] is read when
    the request is handled. *)
Definition handleRequest (s : SshServer) (req : ssh.Request) : list Event :=
  if String.eqb (ssh.Type_ req) "tcpip-forward" then
    [EvForward req (client s)]
  else
    [EvLogRequest req].

(** [handleRequests] over the requests its channel delivers, when no
    handshake completes in between. *)
Definition handleRequests (s : SshServer) (reqs : list ssh.Request)
  : list Event :=
  flat_map (handleRequest s) reqs.

(** *** The accept loop of [Start] and the goroutines it spawns *)

(** What the network delivers to a listening server, one item at a time. *)
Inductive Input :=
| InAcceptError                           (* socket.Accept() fails *)
| InHandshakeError                        (* ssh.NewServerConn fails *)
| InHandshake (sshConn : ssh.ServerConn)  (* ssh.NewServerConn succeeds *)
| InRequest (peer : ssh.ServerConn) (req : ssh.Request)
                                          (* a request on that peer's reqs *)
| InClosed (peer : ssh.ServerConn).       (* that peer's reqs is closed *)

(** A running server: the shared [SshServer], the peers whose
    [handleRequests] goroutine is alive, whether the accept loop has
    panicked, and everything done so far. *)
Record Running := {
  srv : SshServer;
  routers : list ssh.ServerConn;
  crashed : bool;
  trace : list Event
}.

(** The state after [net.Listen] succeeded. *)
Definition listening (s : SshServer) : Running :=
  {| srv := s; routers := []; crashed := false; trace := [] |}.

Definition set_client (s : SshServer) (c : ssh.ServerConn) : SshServer :=
  {| authorizedKeysMap := authorizedKeysMap s;
     client := Some c;
     tcpPort := tcpPort s |}.

(** One step of the server: either the accept loop of [Start] takes one
    connection, or the [handleRequests] goroutine of a peer takes one
    request.  A panic of the accept loop ends the process.  The goroutines
    of [handleChannels] touch neither [client] nor the requests and have no
    step here. *)
Definition Start_step (st : Running) (i : Input) : Running :=
  if crashed st then st else
  match i with
  | InAcceptError =>
      {| srv := srv st; routers := routers st; crashed := true;
         trace := trace st |}
  | InHandshakeError =>
      {| srv := srv st; routers := routers st; crashed := false;
         trace := trace st ++ [EvLogError] |}
  | InHandshake sshConn =>
      {| srv := set_client (srv st) sshConn;
         routers := routers st ++ [sshConn];
         crashed := false;
         trace := trace st ++ [EvLogConnection sshConn] |}
  | InRequest peer req =>
      if bool_decide (peer ∈ routers st) then
        {| srv := srv st; routers := routers st; crashed := false;
           trace := trace st ++ handleRequest (srv st) req |}
      else st
  | InClosed peer =>
      {| srv := srv st;
         routers := filter (fun c => c <> peer) (routers st);
         crashed := false;
         trace := trace st |}
  end.

Definition Start_run (st : Running) (ins : list Input) : Running :=
  fold_left Start_step ins st.

(** The connection of the latest completed handshake among [ins]. *)
Definition latest_peer (ins : list Input) : option ssh.ServerConn :=
  fold_left (fun acc i =>
               match i with InHandshake c => Some c | _ => acc end)
            ins None.

(** *** Loading the authorised keys, seen from the file *)

Section Loading.

Variable ParseAuthorizedKey : string -> option (ssh.PublicKey * string).

(** [extracts b ks]: repeated key extraction from [b] succeeds and gives the
    keys [ks], in the order of the file, until no byte is left. *)
Inductive extracts : string -> list ssh.PublicKey -> Prop :=
| extracts_end : extracts EmptyString []
| extracts_key b k rest ks :
    b <> EmptyString ->
    ParseAuthorizedKey b = Some (k, rest) ->
    extracts rest ks ->
    extracts b (k :: ks).

(** [rejects b]: repeated key extraction from [b] meets an error before the
    bytes are exhausted. *)
Inductive rejects : string -> Prop :=
| rejects_here b :
    b <> EmptyString -> ParseAuthorizedKey b = None -> rejects b
| rejects_later b k rest :
    b <> EmptyString ->
    ParseAuthorizedKey b = Some (k, rest) ->
    rejects rest ->
    rejects b.

(** What is asked of the parser for the loop to end: it consumes input. *)
Definition consumes : Prop :=
  forall b k rest,
    ParseAuthorizedKey b = Some (k, rest) ->
    (String.length rest < String.length b)%nat.

End Loading.

(** *** Channels *)

(** [ssh.NewChannel], through [ChannelType()]. *)
Record NewChannel := {
  chanId : nat;
  ChannelType : string
}.

(** [ssh.RejectionReason]. *)
Inductive RejectionReason :=
| Prohibited
| ConnectionFailed
| UnknownChannelType
| ResourceShortage.

(** What [handleChannels] does with a channel: start
    [handleChannelSession] or [handleChannelDirect] (both in other files of
    the package) in a goroutine, or call [newChannel.Reject]. *)
Inductive ChannelEvent :=
| EvSession (newChannel : NewChannel)
| EvDirect (newChannel : NewChannel)
| EvReject (newChannel : NewChannel) (reason : RejectionReason)
           (message : string).

(** One iteration of the loop of [handleChannels]. *)
Definition handleChannel (newChannel : NewChannel) : list ChannelEvent :=
  let t := ChannelType newChannel in
  if String.eqb t "session" then [EvSession newChannel]
  else if String.eqb t "direct-tcpip" then [EvDirect newChannel]
  else [EvReject newChannel UnknownChannelType
                 ("unknown channel type: " +:+ t)].

(** [handleChannels] over the channels its Go channel delivers. *)
Definition handleChannels (chans : list NewChannel) : list ChannelEvent :=
  flat_map handleChannel chans.

(** [Start] up to the accept loop: [net.Listen] fails ([listen_ok] is
    [false]) and [Start] panics, or the server listens. *)
Definition Start_listen (s : SshServer) (listen_ok : bool) : outcome Running :=
  if listen_ok then Returned (listening s) else Panicked.

End sshd.

(* ================================================================== *)
(** ** The known-hosts store: files and golang.org/x/crypto/ssh/knownhosts *)
(* ================================================================== *)

Module knownhosts.

(** A line of a known_hosts file: a host with its key, a revoked key, or
    text the parser refuses. *)
Inductive Line :=
| Known (host : string) (key : ssh.PublicKey)
| Revoked (key : ssh.PublicKey)
| Malformed (text : string).

(** A file: permission bits and lines. *)
Record File := {
  perm : N;
  lines : list Line
}.

(** The errors a host-key callback returns. *)
Inductive error :=
| KeyError (Want : list ssh.PublicKey)
| RevokedError (key : ssh.PublicKey)
| OtherError (msg : string).

Definition well_formed (l : Line) : bool :=
  match l with Malformed _ => false | _ => true end.

(** [knownhosts.New(path)]: the lines of the file; an error ([None]) when
    the file does not exist or a line does not parse. *)
Definition New (fs : gmap string File) (path : string)
  : option (list Line) :=
  match fs !! path with
  | Some f => if forallb well_formed (lines f) then Some (lines f) else None
  | None => None
  end.

(** The keys recorded for [host], the first of each key type, as
    [checkAddr] collects them. *)
Fixpoint knownKeys (db : list Line) (host : string) (seen : list ssh.PublicKey)
  : list ssh.PublicKey :=
  match db with
  | [] => seen
  | Known h k :: db' =>
      if String.eqb h host &&
         negb (existsb (fun k' => String.eqb (ssh.KeyType k') (ssh.KeyType k))
                       seen)
      then knownKeys db' host (seen ++ [k])
      else knownKeys db' host seen
  | _ :: db' => knownKeys db' host seen
  end.

Definition is_revoked (key : ssh.PublicKey) (l : Line) : bool :=
  match l with
  | Revoked k => String.eqb (ssh.Marshal k) (ssh.Marshal key)
  | _ => false
  end.

(** The callback [knownhosts.New] returns, applied to [host] and [key]:
    [None] is acceptance; an unknown host is a [KeyError] with empty
    [Want]; a known host offering another key is a [KeyError] listing the
    recorded keys.  Host patterns, hashed names and the normalisation of
    [host:port] are not modelled: a line matches the host it names. *)
Definition check (db : list Line) (host : string) (key : ssh.PublicKey)
  : option error :=
  if existsb (is_revoked key) db then Some (RevokedError key) else
  let known := knownKeys db host [] in
  match known with
  | [] => Some (KeyError [])
  | _ =>
      match find (fun k => String.eqb (ssh.KeyType k) (ssh.KeyType key))
                 known with
      | Some k =>
          if String.eqb (ssh.Marshal k) (ssh.Marshal key) then None
          else Some (KeyError known)
      | None => Some (KeyError known)
      end
  end.

End knownhosts.

(* ================================================================== *)
(** ** Package sshc: the SSH connection manager *)
(* ================================================================== *)

Module sshc.

Definition STATUS_CONNECTING : string := "Connecting...".
Definition STATUS_CONNECTED : string := "Connected".
Definition STATUS_CLOSED : string := "Closed".

Record JumpHostConf := {
  URI : string
}.

(** [SshClientConf], the configuration record [NewSshConnection] reads. *)
Record SshClientConf := {
  ServerURI : string;
  conf_Identity : string;
  conf_Password : string;
  conf_KnownHosts : string;
  conf_Insecure : bool;
  conf_Quiet : bool;
  conf_JumpHosts : list JumpHostConf
}.

(** [SshConnection].  [connected] is the counter of the [sync.WaitGroup]:
    [Wait()] returns when it is zero.  The two mutexes have no field: the
    regions they protect are single steps. *)
Record SshConnection := {
  username : string;
  identity : string;
  password : string;
  knownHosts : string;
  serverEndpoint : tun.Endpoint;
  insecure : bool;
  quiet : bool;
  jumpHosts : list JumpHostConf;
  reconnectionInterval : Z;
  keepAliveInterval : Z;
  Client : option ssh.Client;
  connected : Z;
  connectionStatus : string;
  isStopped : bool
}.

Definition with_Client (v : option ssh.Client) (s : SshConnection) :=
  {| username := username s; identity := identity s; password := password s;
     knownHosts := knownHosts s; serverEndpoint := serverEndpoint s;
     insecure := insecure s; quiet := quiet s; jumpHosts := jumpHosts s;
     reconnectionInterval := reconnectionInterval s;
     keepAliveInterval := keepAliveInterval s;
     Client := v; connected := connected s;
     connectionStatus := connectionStatus s; isStopped := isStopped s |}.

Definition with_connected (v : Z) (s : SshConnection) :=
  {| username := username s; identity := identity s; password := password s;
     knownHosts := knownHosts s; serverEndpoint := serverEndpoint s;
     insecure := insecure s; quiet := quiet s; jumpHosts := jumpHosts s;
     reconnectionInterval := reconnectionInterval s;
     keepAliveInterval := keepAliveInterval s;
     Client := Client s; connected := v;
     connectionStatus := connectionStatus s; isStopped := isStopped s |}.

Definition with_connectionStatus (v : string) (s : SshConnection) :=
  {| username := username s; identity := identity s; password := password s;
     knownHosts := knownHosts s; serverEndpoint := serverEndpoint s;
     insecure := insecure s; quiet := quiet s; jumpHosts := jumpHosts s;
     reconnectionInterval := reconnectionInterval s;
     keepAliveInterval := keepAliveInterval s;
     Client := Client s; connected := connected s;
     connectionStatus := v; isStopped := isStopped s |}.

Definition with_isStopped (v : bool) (s : SshConnection) :=
  {| username := username s; identity := identity s; password := password s;
     knownHosts := knownHosts s; serverEndpoint := serverEndpoint s;
     insecure := insecure s; quiet := quiet s; jumpHosts := jumpHosts s;
     reconnectionInterval := reconnectionInterval s;
     keepAliveInterval := keepAliveInterval s;
     Client := Client s; connected := connected s;
     connectionStatus := connectionStatus s; isStopped := v |}.

(** [time.Second], in nanoseconds. *)
Definition Second : Z := 1000000000.

(** [NewSshConnection].  [parsedUsername] is
    [utils.ParseSSHUrl(conf.ServerURI).Username], [HomeDir] is
    [user.Current().HomeDir], [ExpandUserHome] is the function of package
    utils, and [endpoint] is [conf.GetServerEndpoint()]. *)
Definition NewSshConnection (conf : SshClientConf) (parsedUsername : string)
           (HomeDir : string) (ExpandUserHome : string -> string)
           (endpoint : tun.Endpoint) : SshConnection :=
  let knownHostsPath :=
    if String.eqb (conf_KnownHosts conf) EmptyString
    then HomeDir +:+ "/.ssh/known_hosts"
    else ExpandUserHome (conf_KnownHosts conf) in
  {| username := parsedUsername;
     identity := conf_Identity conf;
     password := conf_Password conf;
     knownHosts := knownHostsPath;
     serverEndpoint := endpoint;
     insecure := conf_Insecure conf;
     quiet := conf_Quiet conf;
     jumpHosts := conf_JumpHosts conf;
     reconnectionInterval := 5 * Second;
     keepAliveInterval := 5 * Second;
     Client := None;
     (* c.connected.Add(1) *)
     connected := 1;
     connectionStatus := STATUS_CONNECTING;
     (* c.isStopped.Store(true) *)
     isStopped := true |}.


(** [GetConnectionStatus]. *)
Definition GetConnectionStatus (s : SshConnection) : string :=
  connectionStatus s.

(** *** The supervision loop *)

(** What the connection manager does that its environment observes. *)
Inductive Event :=
| EvLog (msg : string)                 (* log.Printf / log.Println *)
| EvSleep (d : Z)                      (* time.Sleep(d) *)
| EvDial (viaJumpHosts : bool)         (* directConnect / jumpHostConnect *)
| EvSendRequest (name : string) (wantReply : bool)
                                       (* s.Client.SendRequest(name, wantReply, nil) *)
| EvClose (c : ssh.Client)             (* s.Client.Close() *)
| EvDone                               (* s.connected.Done() *)
| EvAdd (n : Z)                        (* s.connected.Add(n) *)
| EvStatus (status : string).          (* s.connectionStatus = status *)

(** The answer of the network to a dial or to a request. *)
Inductive Reply :=
| Ok (id : nat)
| Err (e : string).

(** Where the goroutine running [Start] stands. *)
Inductive PC :=
| Idle               (* no Start() is running *)
| AtCheck            (* if s.isStopped.Load() { break } *)
| AtSetConnecting    (* s.connectionStatus = STATUS_CONNECTING *)
| AtConnect          (* err := s.connect() *)
| AtSleep            (* time.Sleep(s.reconnectionInterval); continue *)
| AtDone             (* s.connected.Done() *)
| AtSetConnected     (* s.connectionStatus = STATUS_CONNECTED *)
| AtKeepAlive        (* entry of s.keepAlive() *)
| AtSend             (* s.Client.SendRequest("keepalive@rospo", true, nil) *)
| AtKeepAliveSleep   (* time.Sleep(s.keepAliveInterval) *)
| AtResetClose       (* resetConn: close the client *)
| AtResetStatus      (* resetConn: status = STATUS_CLOSED *)
| AtAdd              (* s.connected.Add(1) *)
| Crashed.           (* a panic unwound the goroutine *)

Global Instance PC_eq_dec : EqDecision PC.
Proof. solve_decision. Defined.

(** The manager, the position of its [Start] goroutine, and what was done. *)
Record Sys := {
  conn : SshConnection;
  pc : PC;
  trace : list Event
}.

Definition goto (c : SshConnection) (p : PC) (evs : list Event) (s : Sys)
  : Sys :=
  {| conn := c; pc := p; trace := trace s ++ evs |}.

(** First half of [resetConn]: under [clientMU], close the client if there
    is one.  The field keeps pointing to the closed client. *)
Definition resetConn_close (s : SshConnection) : SshConnection * list Event :=
  match Client s with
  | Some c =>
      (with_Client (Some {| ssh.clientId := ssh.clientId c;
                            ssh.closed := true |}) s,
       [EvClose c])
  | None => (s, [])
  end.

(** Second half of [resetConn]: under [connectionStatusMU]. *)
Definition resetConn_status (s : SshConnection) : SshConnection * list Event :=
  (with_connectionStatus STATUS_CLOSED s, [EvStatus STATUS_CLOSED]).

(** [resetConn], run without interruption. *)
Definition resetConn (s : SshConnection) : SshConnection * list Event :=
  let '(s1, e1) := resetConn_close s in
  let '(s2, e2) := resetConn_status s1 in
  (s2, e1 ++ e2).

(** [Stop], run without interruption. *)
Definition Stop (s : SshConnection) : SshConnection * list Event :=
  resetConn (with_isStopped true s).

Section Supervision.

(** [user.Current().HomeDir]. *)
Variable HomeDir : string.

(** What [connect()] logs and does up to the answer to its dial, made by
    [directConnect] or, with jump hosts, by [jumpHostConnect]. *)
Definition dial_events (s : SshConnection) : list Event :=
  let identityPath :=
    if String.eqb (identity s) EmptyString
    then HomeDir +:+ "/.ssh/id_rsa" else identity s in
  [EvLog "trying to connect to remote server...";
   EvLog ("using identity at " +:+ identityPath);
   EvDial (negb (length (jumpHosts s) =? 0)%nat)].

(** [connect()], given the answer to its dial.  On success the client is
    stored under [clientMU]; the error is returned otherwise. *)
Definition connect (r : Reply) (s : SshConnection)
  : SshConnection * list Event * option string :=
  let evs := dial_events s in
  match r with
  | Ok id =>
      (with_Client (Some {| ssh.clientId := id; ssh.closed := false |}) s,
       evs, None)
  | Err e => (s, evs, Some e)
  end.

(** One step of the goroutine running [Start].  [r] is consulted at
    [AtConnect] and at [AtSend] only. *)
Definition Start_step (r : Reply) (s : Sys) : Sys :=
  let c := conn s in
  match pc s with
  | Idle => s
  | Crashed => s
  | AtCheck =>
      if isStopped c then goto c Idle [] s else goto c AtSetConnecting [] s
  | AtSetConnecting =>
      goto (with_connectionStatus STATUS_CONNECTING c) AtConnect
           [EvStatus STATUS_CONNECTING] s
  | AtConnect =>
      match connect r c with
      | (c', evs, Some e) =>
          goto c' AtSleep (evs ++ [EvLog ("error while connecting " +:+ e)]) s
      | (c', evs, None) => goto c' AtDone evs s
      end
  | AtSleep => goto c AtCheck [EvSleep (reconnectionInterval c)] s
  | AtDone =>
      (* a WaitGroup counter that would become negative panics *)
      if connected c - 1 <? 0 then goto c Crashed [] s
      else goto (with_connected (connected c - 1) c) AtSetConnected [EvDone] s
  | AtSetConnected =>
      goto (with_connectionStatus STATUS_CONNECTED c) AtKeepAlive
           [EvStatus STATUS_CONNECTED] s
  | AtKeepAlive => goto c AtSend [EvLog "starting client keep alive"] s
  | AtSend =>
      match Client c with
      | None => goto c Crashed [] s          (* nil pointer dereference *)
      | Some _ =>
          match r with
          | Ok _ => goto c AtKeepAliveSleep
                         [EvSendRequest "keepalive@rospo" true] s
          | Err e =>
              goto c AtResetClose
                   [EvSendRequest "keepalive@rospo" true;
                    EvLog ("error while sending keep alive " +:+ e)] s
          end
      end
  | AtKeepAliveSleep => goto c AtSend [EvSleep (keepAliveInterval c)] s
  | AtResetClose =>
      let '(c', evs) := resetConn_close c in goto c' AtResetStatus evs s
  | AtResetStatus =>
      let '(c', evs) := resetConn_status c in goto c' AtAdd evs s
  | AtAdd => goto (with_connected (connected c + 1) c) AtCheck [EvAdd 1] s
  end.

(** What can happen to a manager: [Start()] is called while no loop runs;
    the running loop takes a step; or some goroutine performs one of the
    three atomic parts of [Stop()]. *)
Inductive Action :=
| CallStart
| Step (r : Reply)
| StopStore
| StopClose
| StopStatus.

Definition step (s : Sys) (a : Action) : Sys :=
  match a with
  | CallStart =>
      match pc s with
      | Idle => goto (with_isStopped false (conn s)) AtCheck [] s
      | _ => s
      end
  | Step r => Start_step r s
  | StopStore => goto (with_isStopped true (conn s)) (pc s) [] s
  | StopClose =>
      let '(c', evs) := resetConn_close (conn s) in goto c' (pc s) evs s
  | StopStatus =>
      let '(c', evs) := resetConn_status (conn s) in goto c' (pc s) evs s
  end.

Definition exec (s : Sys) (script : list Action) : Sys :=
  fold_left step script s.

(** A freshly built manager. *)
Definition boot (c : SshConnection) : Sys :=
  {| conn := c; pc := Idle; trace := [] |}.

(** The loop of [Start] alone, no [Stop] in between: answers to dials come
    from [dials], answers to keep-alive requests from [sends], each used
    once and in order.  The run ends when the bound is reached, when the
    loop has returned or panicked, or when the next answer is missing. *)
Fixpoint Start_run (fuel : nat) (dials sends : list Reply) (s : Sys)
  : Sys * list Reply * list Reply :=
  match fuel with
  | O => (s, dials, sends)
  | S fuel' =>
      match pc s with
      | Idle | Crashed => (s, dials, sends)
      | AtConnect =>
          match dials with
          | r :: dials' => Start_run fuel' dials' sends (Start_step r s)
          | [] => (s, dials, sends)
          end
      | AtSend =>
          match sends with
          | r :: sends' => Start_run fuel' dials sends' (Start_step r s)
          | [] => (s, dials, sends)
          end
      | _ => Start_run fuel' dials sends (Start_step (Ok 0) s)
      end
  end.





End Supervision.


(** What holds of the manager at each position of its [Start] goroutine. *)
Definition loop_invariant (s : Sys) : Prop :=
  match pc s with
  | Idle | AtCheck | AtSetConnecting | AtConnect | AtSleep =>
      connected (conn s) = 1 /\ connectionStatus (conn s) <> STATUS_CONNECTED
  | AtDone =>
      connected (conn s) = 1 /\ connectionStatus (conn s) <> STATUS_CONNECTED
      /\ Client (conn s) <> None
  | AtSetConnected | AtAdd =>
      connected (conn s) = 0 /\ connectionStatus (conn s) <> STATUS_CONNECTED
      /\ Client (conn s) <> None
  | AtKeepAlive | AtSend | AtKeepAliveSleep | AtResetClose | AtResetStatus =>
      connected (conn s) = 0 /\ Client (conn s) <> None
  | Crashed => False
  end.

(** *** The host-key verifier *)

(** What a host-key callback acts on: the files, and the lines logged. *)
Record World := {
  fs : gmap string knownhosts.File;
  logged : list string
}.

Definition say (msg : string) (w : World) : World :=
  {| fs := fs w; logged := logged w ++ [msg] |}.

Definition with_fs (f : gmap string knownhosts.File) (w : World) : World :=
  {| fs := f; logged := logged w |}.

(** Modelled from the spec: utils.AddHostKeyToKnownHosts, whose source is
    not part of the files at hand.  The specification says the key is
    appended to the store, which is only ever appended to; an absent file is
    the error return. *)
Definition AddHostKeyToKnownHosts (host : string) (key : ssh.PublicKey)
           (knownHostsPath : string) (f : gmap string knownhosts.File)
  : gmap string knownhosts.File * option knownhosts.error :=
  match f !! knownHostsPath with
  | Some file =>
      (<[knownHostsPath :=
           {| knownhosts.perm := knownhosts.perm file;
              knownhosts.lines :=
                knownhosts.lines file ++ [knownhosts.Known host key] |}]> f,
       None)
  | None => (f, Some (knownhosts.OtherError "open known_hosts"))
  end.

(** The permission bits [0600]. *)
Definition mode_0600 : N := 6 * 8 * 8.

(** A line feed and a tab, for the log lines that hold them. *)
Definition LF : string := String (ascii_of_nat 10) EmptyString.
Definition TAB : string := String (ascii_of_nat 9) EmptyString.

Section Verifier.

Variable FingerprintSHA256 : ssh.PublicKey -> string.
(** [utils.SerializePublicKey]: the authorized_keys rendering of a key. *)
Variable SerializePublicKey : ssh.PublicKey -> string.
(** Whether the operating system lets a file be created at a path. *)
Variable creatable : string -> bool.

(** [os.OpenFile(path, os.O_CREATE, perm)] followed by [f.Close()]: an
    existing file is left as it is, a missing one is created empty with the
    permission bits asked for; [None] is the error return. *)
Definition OpenFile_CREATE (path : string) (perm : N)
           (f : gmap string knownhosts.File)
  : option (gmap string knownhosts.File) :=
  match f !! path with
  | Some _ => Some f
  | None =>
      if creatable path
      then Some (<[path := {| knownhosts.perm := perm;
                              knownhosts.lines := [] |}]> f)
      else None
  end.

(** The line logged before an unknown key is added. *)
Definition warning (host : string) (key : ssh.PublicKey) : string :=
  "WARNING: " +:+ host +:+ " is not trusted, adding this key: "
  +:+ LF +:+ LF +:+ SerializePublicKey key +:+ LF +:+ LF
  +:+ "to known_hosts file.".

(** The part of the callback after [clb] was obtained: what it does with
    the answer [e := clb(host, remote, key)]. *)
Definition judge (s : SshConnection) (fail : bool) (host : string)
           (key : ssh.PublicKey) (db : list knownhosts.Line) (w : World)
  : World * outcome (option knownhosts.error) :=
  let e := knownhosts.check db host key in
  match e with
  | Some (knownhosts.KeyError Want) =>
      if (0 <? length Want)%nat then
        (say ("ERROR: " +:+ FingerprintSHA256 key +:+ " is not a key of "
              +:+ host +:+ ", either a man in the middle attack or "
              +:+ host +:+ " host pub key was changed.") w,
         Returned e)
      else if fail then
        (say ("ERROR: the host '" +:+ host +:+ "' is not trusted. If it is"
              +:+ " trusted instead, " +:+ LF
              +:+ TAB +:+ TAB +:+ TAB +:+ TAB
              +:+ "  please grab its pub key using the"
              +:+ " 'rospo grabpubkey' command") w,
         FatalExit)
      else
        let w1 := say (warning host key) w in
        let '(f', r) :=
          AddHostKeyToKnownHosts host key (knownHosts s) (fs w1) in
        (with_fs f' w1, Returned r)
  | _ => (w, Returned e)
  end.

(** The callback [verifyHostCallback(fail)] returns, applied to a host and
    the key it offers.  [Returned None] accepts the key. *)
Definition verifyHostCallback (s : SshConnection) (fail : bool)
           (host : string) (key : ssh.PublicKey) (w : World)
  : World * outcome (option knownhosts.error) :=
  if insecure s then (w, Returned None) else
  let w0 := say ("using known_hosts file at " +:+ knownHosts s) w in
  match knownhosts.New (fs w0) (knownHosts s) with
  | Some clb => judge s fail host key clb w0
  | None =>
      let w1 := say ("error while parsing 'known_hosts' file: "
                     +:+ knownHosts s) w0 in
      match OpenFile_CREATE (knownHosts s) mode_0600 (fs w1) with
      | None => (say "open known_hosts" w1, FatalExit)
      | Some f' =>
          let w2 := with_fs f' w1 in
          match knownhosts.New (fs w2) (knownHosts s) with
          | None => (say "parse known_hosts" w2, FatalExit)
          | Some clb => judge s fail host key clb w2
          end
      end
  end.

End Verifier.

(** How [connect] and [jumpHostConnect] build the callback ([fail] is
    [true]) and how [GrabPubKey] builds it ([fail] is [false]). *)
Definition callback_of_connect : bool := true.
Definition callback_of_GrabPubKey : bool := false.

(** *** The auth provider *)

(** The place of a method in the order of the specification. *)
Definition rank (m : ssh.AuthMethod) : nat :=
  match m with
  | ssh.PublicKeys _ => 1
  | ssh.Password _ => 2
  | ssh.PasswordCallback _ => 3
  end.

Section Auth.

(** [utils.LoadIdentityFile]: the signer of the private key in the file,
    which the function wraps into [ssh.PublicKeys]; [None] is its error
    return. *)
Variable LoadIdentityFile : string -> option ssh.Signer.

(** The two lines the interactive callback prints before it reads the
    password from the terminal. *)
Definition prompt : list string :=
  [String (ascii_of_nat 10) "The server asks for a password"; "Password: "].

Definition getAuthMethods (s : SshConnection) : list ssh.AuthMethod :=
  let authMethods := [] in
  let authMethods :=
    match LoadIdentityFile (identity s) with
    | Some signer => authMethods ++ [ssh.PublicKeys signer]
    | None => authMethods
    end in
  let authMethods :=
    if negb (String.eqb (password s) EmptyString)
    then authMethods ++ [ssh.Password (password s)]
    else authMethods in
  authMethods ++ [ssh.PasswordCallback prompt].

End Auth.

(** *** Waiting for the connection *)

(** [ReadyWait] returns when the counter of the wait group is zero, and
    blocks otherwise. *)
Definition ReadyWait_returns (s : SshConnection) : bool := connected s =? 0.

(** The positions of the [Start] goroutine after [Done()] and before
    [Add(1)]. *)
Definition between_Done_and_Add (p : PC) : bool :=
  match p with
  | AtSetConnected | AtKeepAlive | AtSend | AtKeepAliveSleep
  | AtResetClose | AtResetStatus | AtAdd => true
  | _ => false
  end.

(** The positions at which the goroutine holds a connection that it has
    announced: inside [keepAlive] or inside the [resetConn] after it. *)
Definition in_session (p : PC) : bool :=
  match p with
  | AtKeepAlive | AtSend | AtKeepAliveSleep | AtResetClose | AtResetStatus =>
      true
  | _ => false
  end.

(** The configuration of a manager: every field but the four that [Start]
    and [Stop] write. *)
Definition same_config (a b : SshConnection) : Prop :=
  username a = username b /\ identity a = identity b /\
  password a = password b /\ knownHosts a = knownHosts b /\
  serverEndpoint a = serverEndpoint b /\ insecure a = insecure b /\
  quiet a = quiet b /\ jumpHosts a = jumpHosts b /\
  reconnectionInterval a = reconnectionInterval b /\
  keepAliveInterval a = keepAliveInterval b.

(** *** Grabbing the public key of the server *)

Section Grab.

Variable FingerprintSHA256 : ssh.PublicKey -> string.
Variable SerializePublicKey : ssh.PublicKey -> string.
Variable creatable : string -> bool.
(** [String()] of the endpoint type of package utils, which [sshc] uses. *)
Variable Endpoint_String : tun.Endpoint -> string.

(** [GrabPubKey]: [ssh.Dial] to [s.serverEndpoint.String()] with the
    callback [s.verifyHostCallback(false)] and nothing else in the
    configuration.  [offered] is the host key the server presents in the key
    exchange, [None] when the dial fails before.  The dial hands the address
    it was given to the callback as the host name.  What [ssh.Dial] returns
    is ignored; a fatal exit inside the callback ends the process. *)
Definition GrabPubKey (s : SshConnection) (offered : option ssh.PublicKey)
           (w : World) : World * outcome unit :=
  match offered with
  | None => (w, Returned tt)
  | Some key =>
      match verifyHostCallback FingerprintSHA256 SerializePublicKey creatable
              s callback_of_GrabPubKey (Endpoint_String (serverEndpoint s))
              key w with
      | (w', Returned _) => (w', Returned tt)
      | (w', Panicked) => (w', Panicked)
      | (w', FatalExit) => (w', FatalExit)
      | (w', OutOfFuel) => (w', OutOfFuel)
      end
  end.

End Grab.

(** *** Dialing: directly, or through the jump hosts *)

(** The operations on the network a dial consists of. *)
Inductive NetOp :=
| SshDial (addr user : string)
    (* ssh.Dial("tcp", addr, config): TCP connection and SSH handshake *)
| TunnelDial (via : ssh.Client) (addr : string)
    (* via.Dial("tcp", addr): a TCP stream through the client [via] *)
| Handshake (addr user : string).
    (* ssh.NewClientConn(conn, addr, config) and ssh.NewClient *)

Inductive DialEvent :=
| DLog (msg : string)
| DNet (op : NetOp).

Definition is_net (e : DialEvent) : bool :=
  match e with DNet _ => true | DLog _ => false end.

(** The number of operations on the network among the events. *)
Definition net_ops (evs : list DialEvent) : nat :=
  length (filter (fun e => is_net e = true) evs).

Definition open_client (id : nat) : ssh.Client :=
  {| ssh.clientId := id; ssh.closed := false |}.

(** What a dial returns: a client or an error; a panic when a nil client is
    used; [OutOfFuel] when the network gives no further answer. *)
Definition dialed := outcome (ssh.Client + string).

(** [via.Dial("tcp", addr)] followed by [ssh.NewClientConn] and
    [ssh.NewClient]: the way every hop after the first, and the server
    behind the last hop, is reached.  Calling [Dial] on a nil client is a
    nil pointer dereference. *)
Definition tunnel_handshake (via : option ssh.Client) (addr user : string)
           (answers : list Reply) : list DialEvent * dialed * list Reply :=
  match via with
  | None => ([], Panicked, answers)
  | Some jhClient =>
      match answers with
      | [] => ([DNet (TunnelDial jhClient addr)], OutOfFuel, [])
      | Err e :: rest =>
          ([DNet (TunnelDial jhClient addr)], Returned (inr e), rest)
      | Ok _ :: [] =>
          ([DNet (TunnelDial jhClient addr); DNet (Handshake addr user)],
           OutOfFuel, [])
      | Ok _ :: Err e :: rest =>
          ([DNet (TunnelDial jhClient addr); DNet (Handshake addr user)],
           Returned (inr e), rest)
      | Ok _ :: Ok id :: rest =>
          ([DNet (TunnelDial jhClient addr); DNet (Handshake addr user)],
           Returned (inl (open_client id)), rest)
      end
  end.

Section Dialing.

(** [utils.ParseSSHUrl], with the type its call sites show. *)
Variable ParseSSHUrl : string -> utils.sshUrl.
(** [user.Current().HomeDir]. *)
Variable HomeDir : string.
(** [String()] of the endpoint type of package utils, which [sshc] uses. *)
Variable Endpoint_String : tun.Endpoint -> string.

(** [hop.String()] for the hop of a jump host. *)
Definition hop_addr (jh : JumpHostConf) : string :=
  let parsed := ParseSSHUrl (URI jh) in
  Endpoint_String
    {| tun.Host := utils.Host parsed; tun.Port := utils.Port parsed |}.

Definition hop_user (jh : JumpHostConf) : string :=
  utils.Username (ParseSSHUrl (URI jh)).

(** The body of the loop of [jumpHostConnect] for the hop [jh] at index
    [idx], with the client [jhClient] of the previous hop. *)
Definition hop_step (idx : nat) (jhClient : option ssh.Client)
           (jh : JumpHostConf) (answers : list Reply)
  : list DialEvent * dialed * list Reply :=
  let addr := hop_addr jh in
  let user := hop_user jh in
  let hello := DLog ("connecting to hop " +:+ user +:+ "@" +:+ addr) in
  let reached := DLog ("reached the jump host " +:+ user +:+ "@" +:+ addr) in
  if (idx =? 0)%nat then
    match answers with
    | [] => ([hello; DNet (SshDial addr user)], OutOfFuel, [])
    | Err e :: rest =>
        ([hello; DNet (SshDial addr user);
          DLog ("dial INTO remote server error. " +:+ e)],
         Returned (inr e), rest)
    | Ok id :: rest =>
        ([hello; DNet (SshDial addr user); reached],
         Returned (inl (open_client id)), rest)
    end
  else
    match tunnel_handshake jhClient addr user answers with
    | (evs, Returned (inl c), rest) =>
        (hello :: evs ++ [reached], Returned (inl c), rest)
    | (evs, r, rest) => (hello :: evs, r, rest)
    end.

(** The loop [for idx, jh := range s.jumpHosts] of [jumpHostConnect]: the
    client of the last hop, or the error that made the function return. *)
Fixpoint traverse (hops : list JumpHostConf) (idx : nat)
         (jhClient : option ssh.Client) (answers : list Reply)
  : list DialEvent * outcome (option ssh.Client + string) * list Reply :=
  match hops with
  | [] => ([], Returned (inl jhClient), answers)
  | jh :: hops' =>
      match hop_step idx jhClient jh answers with
      | (evs, Returned (inl c), rest) =>
          match traverse hops' (S idx) (Some c) rest with
          | (evs', r, rest') => (evs ++ evs', r, rest')
          end
      | (evs, Returned (inr e), rest) => (evs, Returned (inr e), rest)
      | (evs, Panicked, rest) => (evs, Panicked, rest)
      | (evs, FatalExit, rest) => (evs, FatalExit, rest)
      | (evs, OutOfFuel, rest) => (evs, OutOfFuel, rest)
      end
  end.

(** [jumpHostConnect(server, sshConfig)]; [user] is [sshConfig.User]. *)
Definition jumpHostConnect (s : SshConnection) (server : tun.Endpoint)
           (user : string) (answers : list Reply)
  : list DialEvent * dialed * list Reply :=
  match traverse (jumpHosts s) 0 None answers with
  | (evs, Returned (inl jhClient), rest) =>
      let hello :=
        DLog ("connecting to " +:+ user +:+ "@" +:+ Endpoint_String server) in
      match tunnel_handshake jhClient (Endpoint_String server) user rest with
      | (evs', r, rest') => (evs ++ hello :: evs', r, rest')
      end
  | (evs, Returned (inr e), rest) => (evs, Returned (inr e), rest)
  | (evs, Panicked, rest) => (evs, Panicked, rest)
  | (evs, FatalExit, rest) => (evs, FatalExit, rest)
  | (evs, OutOfFuel, rest) => (evs, OutOfFuel, rest)
  end.

(** [directConnect(server, sshConfig)]. *)
Definition directConnect (server : tun.Endpoint) (user : string)
           (answers : list Reply) : list DialEvent * dialed * list Reply :=
  let addr := Endpoint_String server in
  let hello := DLog ("connecting to " +:+ addr) in
  match answers with
  | [] => ([hello; DNet (SshDial addr user)], OutOfFuel, [])
  | Err e :: rest =>
      ([hello; DNet (SshDial addr user);
        DLog ("dial INTO remote server error. " +:+ e)],
       Returned (inr e), rest)
  | Ok id :: rest =>
      ([hello; DNet (SshDial addr user);
        DLog ("connected to remote server at " +:+ addr +:+ LF)],
       Returned (inl (open_client id)), rest)
  end.


End Dialing.

End sshc.

(* ================================================================== *)
(** ** Concrete data used to exercise the definitions *)
(* ================================================================== *)

Module examples.

Definition endpoint1 : tun.Endpoint :=
  {| tun.Host := "example.com"; tun.Port := 2222 |}.

Definition nl : ascii := ascii_of_nat 10.

(** A stand-in for [ssh.ParseAuthorizedKey]: one key per line, the line
    being the wire form of the key. *)
Definition line_ParseAuthorizedKey (b : string)
  : option (ssh.PublicKey * string) :=
  let mk l := {| ssh.KeyType := "ssh-ed25519"; ssh.Marshal := l |} in
  match utils.split_at nl b with
  | Some (l, r) => if String.eqb l EmptyString then None else Some (mk l, r)
  | None => if String.eqb b EmptyString then None else Some (mk b, EmptyString)
  end.

Definition line_ParsePrivateKey (b : string) : option ssh.Signer :=
  if String.eqb b EmptyString then None
  else Some {| ssh.SignerKey :=
                 {| ssh.KeyType := "ssh-ed25519"; ssh.Marshal := b |} |}.

Definition tag_Fingerprint (k : ssh.PublicKey) : string :=
  "SHA256:" +:+ ssh.Marshal k.

Definition keyA : ssh.PublicKey :=
  {| ssh.KeyType := "ssh-ed25519"; ssh.Marshal := "AAAA" |}.
Definition keyB : ssh.PublicKey :=
  {| ssh.KeyType := "ssh-ed25519"; ssh.Marshal := "BBBB" |}.
Definition keyC : ssh.PublicKey :=
  {| ssh.KeyType := "ssh-ed25519"; ssh.Marshal := "CCCC" |}.

Definition authorized_keys_file : string :=
  "AAAA" +:+ String nl ("BBBB" +:+ String nl EmptyString).

Definition host_signer : ssh.Signer :=
  {| ssh.SignerKey :=
       {| ssh.KeyType := "ssh-ed25519"; ssh.Marshal := "hostkey" |} |}.

Definition server1 : sshd.SshServer :=
  {| sshd.authorizedKeysMap := <["BBBB" := true]> (<["AAAA" := true]> ∅);
     sshd.client := None;
     sshd.tcpPort := "2222" |}.

Definition conn_meta : ssh.ConnMetadata :=
  {| ssh.RemoteAddr := "10.0.0.7:50000"; ssh.User := "alice" |}.

Definition peerA : ssh.ServerConn :=
  {| ssh.connId := 1; ssh.connRemoteAddr := "10.0.0.7:50000" |}.
Definition peerB : ssh.ServerConn :=
  {| ssh.connId := 2; ssh.connRemoteAddr := "10.0.0.8:50000" |}.

Definition client_conf : sshc.SshClientConf :=
  {| sshc.ServerURI := "alice@example.com:2222";
     sshc.conf_Identity := EmptyString;
     sshc.conf_Password := "secret";
     sshc.conf_KnownHosts := EmptyString;
     sshc.conf_Insecure := false;
     sshc.conf_Quiet := false;
     sshc.conf_JumpHosts := [] |}.

Definition home : string := "/home/alice".

Definition manager : sshc.SshConnection :=
  sshc.NewSshConnection client_conf "alice" home (fun p => p) endpoint1.

(** A dial that succeeds, a keep-alive request that fails, and the reset
    that follows. *)
Definition one_session : list sshc.Action :=
  [sshc.CallStart;
   sshc.Step (sshc.Ok 0); sshc.Step (sshc.Ok 0);   (* check, status *)
   sshc.Step (sshc.Ok 7);                          (* connect succeeds *)
   sshc.Step (sshc.Ok 0); sshc.Step (sshc.Ok 0);   (* Done, status *)
   sshc.Step (sshc.Ok 0);                          (* keepAlive starts *)
   sshc.Step (sshc.Err "EOF");                     (* the request fails *)
   sshc.Step (sshc.Ok 0); sshc.Step (sshc.Ok 0);   (* resetConn *)
   sshc.Step (sshc.Ok 0)].                         (* Add(1) *)

(** The prefix of [one_session] that ends in the keep-alive loop. *)
Definition until_connected : list sshc.Action := firstn 7 one_session.

Definition tag_Serialize (k : ssh.PublicKey) : string :=
  ssh.KeyType k +:+ " " +:+ ssh.Marshal k.

Definition always_creatable (path : string) : bool := true.

Definition server_name : string := "example.com:2222".

(** Three states of the known-hosts store of [manager]: the file is there
    and empty; there is no file; the file records [keyB] for the server. *)
Definition world_empty_store : sshc.World :=
  {| sshc.fs := {[ sshc.knownHosts manager :=
                     {| knownhosts.perm := sshc.mode_0600;
                        knownhosts.lines := [] |} ]};
     sshc.logged := [] |}.

Definition world_no_store : sshc.World :=
  {| sshc.fs := ∅; sshc.logged := [] |}.

Definition world_other_key : sshc.World :=
  {| sshc.fs := {[ sshc.knownHosts manager :=
                     {| knownhosts.perm := sshc.mode_0600;
                        knownhosts.lines :=
                          [knownhosts.Known server_name keyB] |} ]};
     sshc.logged := [] |}.

Definition load_identity (path : string) : option ssh.Signer :=
  if String.eqb path "/home/alice/.ssh/id_ed25519"
  then Some {| ssh.SignerKey := keyA |} else None.

Definition manager_with_identity : sshc.SshConnection :=
  sshc.NewSshConnection
    {| sshc.ServerURI := "alice@example.com:2222";
       sshc.conf_Identity := "/home/alice/.ssh/id_ed25519";
       sshc.conf_Password := "secret";
       sshc.conf_KnownHosts := EmptyString;
       sshc.conf_Insecure := false;
       sshc.conf_Quiet := false;
       sshc.conf_JumpHosts := [] |}
    "alice" home (fun p => p) endpoint1.

Definition req_forward : ssh.Request :=
  {| ssh.Type_ := "tcpip-forward"; ssh.WantReply := true;
     ssh.Payload := "0.0.0.0:19090" |}.
Definition req_keepalive : ssh.Request :=
  {| ssh.Type_ := "keepalive@rospo"; ssh.WantReply := true;
     ssh.Payload := EmptyString |}.

Definition chan_session : sshd.NewChannel :=
  {| sshd.chanId := 1; sshd.ChannelType := "session" |}.
Definition chan_direct : sshd.NewChannel :=
  {| sshd.chanId := 2; sshd.ChannelType := "direct-tcpip" |}.
Definition chan_x11 : sshd.NewChannel :=
  {| sshd.chanId := 3; sshd.ChannelType := "x11" |}.

Definition endpoint2 : tun.Endpoint :=
  {| tun.Host := "example.org"; tun.Port := 22 |}.

(** A stand-in for [utils.ParseSSHUrl] with the type of its call sites. *)
Definition total_ParseSSHUrl (uri : string) : utils.sshUrl :=
  match utils.ParseSSHUrl uri with
  | Some u => u
  | None => {| utils.Username := EmptyString; utils.Host := uri;
               utils.Port := 22 |}
  end.

Definition manager_with_jumps : sshc.SshConnection :=
  sshc.NewSshConnection
    {| sshc.ServerURI := "alice@example.com:2222";
       sshc.conf_Identity := EmptyString;
       sshc.conf_Password := EmptyString;
       sshc.conf_KnownHosts := EmptyString;
       sshc.conf_Insecure := false;
       sshc.conf_Quiet := false;
       sshc.conf_JumpHosts := [ {| sshc.URI := "bob@bastion1:22" |};
                                {| sshc.URI := "carol@bastion2:2200" |} ] |}
    "alice" home (fun p => p) endpoint1.

(** The manager inside its keep-alive loop, after [Stop] was called. *)
Definition stopped_in_session : sshc.Sys :=
  sshc.exec home (sshc.boot manager)
    (until_connected ++ [sshc.StopStore; sshc.StopClose; sshc.StopStatus]).

(** The manager asleep between two dials, after [Stop] was called. *)
Definition stopped_in_retry : sshc.Sys :=
  sshc.exec home (sshc.boot manager)
    [sshc.CallStart; sshc.Step (sshc.Ok 0); sshc.Step (sshc.Ok 0);
     sshc.Step (sshc.Err "refused");
     sshc.StopStore; sshc.StopClose; sshc.StopStatus].

(** A store whose file does not parse. *)
Definition world_broken_store : sshc.World :=
  {| sshc.fs := {[ sshc.knownHosts manager :=
                     {| knownhosts.perm := sshc.mode_0600;
                        knownhosts.lines :=
                          [knownhosts.Known server_name keyB;
                           knownhosts.Malformed "garbage"] |} ]};
     sshc.logged := [] |}.

(** A store that records [keyA] for the server and lists [keyC] as
    revoked. *)
Definition world_same_key : sshc.World :=
  {| sshc.fs := {[ sshc.knownHosts manager :=
                     {| knownhosts.perm := sshc.mode_0600;
                        knownhosts.lines :=
                          [knownhosts.Known server_name keyA;
                           knownhosts.Revoked keyC] |} ]};
     sshc.logged := [] |}.

End examples.

(* ================================================================== *)
(** * Properties *)
(* ================================================================== *)

(** ** Endpoints: rendering and parsing back *)

Module tun_props.

Import utils.

Lemma no_char_cons c a s :
  tun.no_char c (String a s) <-> a <> c /\ tun.no_char c s.
Proof.
  unfold tun.no_char; simpl; split.
  - intros H; split; [intros ->; apply H; now left | intros Hin; apply H; now right].
  - intros [Ha Hs] [Heq | Hin]; [now apply Ha | now apply Hs].
Qed.

Lemma no_char_app c s t :
  tun.no_char c (s +:+ t) <-> tun.no_char c s /\ tun.no_char c t.
Proof.
  induction s as [|a s IH].
  - unfold tun.no_char at 2; simpl; tauto.
  - change (String a s +:+ t) with (String a (s +:+ t)).
    rewrite !no_char_cons, IH; tauto.
Qed.

Lemma split_at_first c h t :
  tun.no_char c h -> split_at c (h +:+ String c t) = Some (h, t).
Proof.
  induction h as [|a h IH]; intros Hno.
  - simpl. now rewrite Ascii.eqb_refl.
  - change (String a h +:+ String c t) with (String a (h +:+ String c t)).
    simpl. apply no_char_cons in Hno as [Hne Hno].
    destruct (Ascii.eqb_spec a c) as [->|_]; [now destruct Hne|].
    now rewrite IH.
Qed.

Lemma split_at_absent c s : tun.no_char c s -> split_at c s = None.
Proof.
  induction s as [|a s IH]; simpl; intros Hno; [reflexivity|].
  apply no_char_cons in Hno as [Hne Hno].
  destruct (Ascii.eqb_spec a c) as [->|_]; [now destruct Hne|].
  now rewrite IH.
Qed.

(** Every character of a rendered natural number is a decimal digit. *)
Lemma uint_digits d a :
  In a (list_ascii_of_string (NilEmpty.string_of_uint d)) -> tun.is_digit a = true.
Proof.
  induction d; simpl; try tauto; intros [<- | Hin]; auto.
Qed.

Lemma fmt_d_digits p a :
  0 <= p -> In a (list_ascii_of_string (tun.fmt_d p)) -> tun.is_digit a = true.
Proof.
  intros Hp. unfold tun.fmt_d.
  destruct p as [|p|p]; [| |lia]; simpl.
  - intros [<- | []]; reflexivity.
  - unfold NilZero.string_of_uint.
    destruct (Pos.to_uint p); try apply uint_digits.
    simpl. intros [<- | []]; reflexivity.
Qed.

Lemma digits_no_char c s :
  tun.is_digit c = false ->
  (forall a, In a (list_ascii_of_string s) -> tun.is_digit a = true) ->
  tun.no_char c s.
Proof.
  intros Hc Hs Hin. apply Hs in Hin. congruence.
Qed.

(** A rendered port parses back to the port. *)
Lemma parse_port_fmt_d p :
  0 <= p <= 65535 -> parse_port (tun.fmt_d p) = Some p.
Proof.
  intros Hp. unfold parse_port, tun.fmt_d.
  rewrite NilZero.isi.
  - rewrite DecimalZ.of_to.
    destruct (Z.leb_spec 0 p); [|lia].
    destruct (Z.leb_spec p 65535); [reflexivity|lia].
  - destruct p as [|p|p]; simpl; try discriminate.
    intros [= E]. now destruct (DecimalPos.Unsigned.to_uint_nonnil p).
  - destruct p; simpl; discriminate || lia.
Qed.

Lemma strip_prefix_Some p s r :
  strip_prefix p s = Some r -> s = p +:+ r.
Proof.
  revert s; induction p as [|a p IH]; intros s; simpl.
  - now intros [= ->].
  - destruct s as [|b s]; [discriminate|].
    destruct (Ascii.eqb_spec a b) as [->|_]; [|discriminate].
    intros E. apply IH in E. now subst.
Qed.

(** The rendering of a host without [:] never starts with the scheme. *)
Lemma strip_scheme_absent h d :
  tun.no_char ":"%char h -> tun.no_char "/"%char d ->
  strip_prefix "ssh://" (h +:+ String ":"%char d) = None.
Proof.
  intros Hh Hd.
  destruct (strip_prefix "ssh://" (h +:+ String ":"%char d)) as [r|] eqn:E;
    [exfalso | reflexivity].
  apply strip_prefix_Some in E.
  assert (Hs : split_at ":"%char (h +:+ String ":"%char d)
               = Some ("ssh", String "/"%char (String "/"%char r)))
    by (rewrite E; reflexivity).
  rewrite split_at_first in Hs by assumption.
  injection Hs as _ ->.
  apply no_char_cons in Hd as [Hd _]. now apply Hd.
Qed.

(** C9.  For every valid endpoint (a non-empty host without [@] and [:], a
    port between 0 and 65535), [String()] renders the host, a colon and
    the port in decimal: the rendering holds no [@] (no user part) and
    splits at its first colon into the host and the decimal port; and
    [NewEndpoint] applied to the rendering gives back an endpoint with the
    same host and the same port. *)
Theorem String_NewEndpoint_roundtrip (e : tun.Endpoint) :
  tun.valid e ->
  tun.no_char "@"%char (tun.String_ e) /\
  split_at ":"%char (tun.String_ e) = Some (tun.Host e, tun.fmt_d (tun.Port e)) /\
  parse_port (tun.fmt_d (tun.Port e)) = Some (tun.Port e) /\
  tun.NewEndpoint (tun.String_ e) = Some e.
Proof.
  intros (Hne & Hat & Hcolon & Hport).
  destruct e as [h p]; simpl in *.
  assert (Hr : tun.String_ {| tun.Host := h; tun.Port := p |}
               = h +:+ String ":"%char (tun.fmt_d p)) by reflexivity.
  assert (Hdig : forall c, tun.is_digit c = false -> tun.no_char c (tun.fmt_d p)).
  { intros c Hc. apply digits_no_char; [assumption|].
    intros a. apply fmt_d_digits. lia. }
  assert (Hno : tun.no_char "@"%char (h +:+ String ":"%char (tun.fmt_d p))).
  { apply no_char_app; split; [assumption|].
    apply no_char_cons; split; [discriminate|]. now apply Hdig. }
  rewrite Hr. repeat split; try assumption.
  - now apply split_at_first.
  - now apply parse_port_fmt_d.
  - unfold tun.NewEndpoint, ParseSSHUrl.
    rewrite strip_scheme_absent by (auto; now apply Hdig).
    rewrite (split_at_absent _ _ Hno), split_at_first by assumption.
    rewrite parse_port_fmt_d by assumption. simpl.
    destruct (String.eqb_spec h EmptyString) as [->|_]; [now destruct Hne|].
    reflexivity.
Qed.

Lemma String_NewEndpoint_roundtrip_witness :
  tun.valid examples.endpoint1 /\
  tun.String_ examples.endpoint1 = "example.com:2222" /\
  tun.NewEndpoint "example.com:2222" = Some examples.endpoint1.
Proof.
  assert (Hv : tun.valid examples.endpoint1).
  { unfold tun.valid, tun.no_char; simpl.
    repeat split; try lia; try discriminate; intuition discriminate. }
  split; [exact Hv|].
  split; [reflexivity|].
  exact (proj2 (proj2 (proj2 (String_NewEndpoint_roundtrip examples.endpoint1 Hv)))).
Defined.

End tun_props.

(** ** The embedded server *)

Module sshd_props.

Import sshd.

Section KeyAuth.

Variable FingerprintSHA256 : ssh.PublicKey -> string.
Variable ParseAuthorizedKey : string -> option (ssh.PublicKey * string).
Variable ParsePrivateKey : string -> option ssh.Signer.

Local Abbreviation load := (loadAuthorizedKeys ParseAuthorizedKey).
Local Abbreviation new := (NewSshServer ParseAuthorizedKey ParsePrivateKey).
Local Abbreviation auth := (keyAuth FingerprintSHA256).

Lemma load_all_true fuel : forall bytes m m',
  all_true m -> load fuel bytes m = Returned m' -> all_true m'.
Proof.
  induction fuel as [|fuel IH]; intros bytes m m' Hm; simpl;
    destruct (0 <? String.length bytes)%nat; try discriminate;
    try (intros [= <-]; exact Hm).
  destruct (ParseAuthorizedKey bytes) as [[pubKey rest]|]; [|discriminate].
  apply IH. intros k v.
  destruct (decide (ssh.Marshal pubKey = k)) as [->|Hne].
  - rewrite lookup_insert_eq. now intros [= <-].
  - rewrite lookup_insert_ne by assumption. apply Hm.
Qed.

(** The loop only adds keys: what was authorised stays authorised. *)
Lemma load_grows fuel : forall bytes m m',
  load fuel bytes m = Returned m' -> dom m ⊆ dom m'.
Proof.
  induction fuel as [|fuel IH]; intros bytes m m'; simpl;
    destruct (0 <? String.length bytes)%nat; try discriminate;
    try (intros [= <-]; set_solver).
  destruct (ParseAuthorizedKey bytes) as [[pubKey rest]|]; [|discriminate].
  intros H. apply IH in H. rewrite dom_insert in H. set_solver.
Qed.

(** With a parser that consumes input, the bound never ends the loop. *)
Lemma load_total
      (shrinks : forall b k r, ParseAuthorizedKey b = Some (k, r) ->
                               (String.length r < String.length b)%nat)
      fuel : forall bytes m,
  (String.length bytes <= fuel)%nat -> load fuel bytes m <> OutOfFuel.
Proof.
  induction fuel as [|fuel IH]; intros bytes m Hlen; simpl.
  - destruct (Nat.ltb_spec 0 (String.length bytes)); [lia|discriminate].
  - destruct (Nat.ltb_spec 0 (String.length bytes)); [|discriminate].
    destruct (ParseAuthorizedKey bytes) as [[pubKey rest]|] eqn:E;
      [|discriminate].
    apply IH. apply shrinks in E. lia.
Qed.

Lemma map_get_dom m k : all_true m -> map_get m k = true <-> k ∈ dom m.
Proof.
  intros Hm. unfold map_get. rewrite elem_of_dom. split.
  - destruct (m !! k) as [v|]; simpl; [eauto | discriminate].
  - intros [v Hv]. rewrite Hv. simpl. now apply (Hm k).
Qed.

Lemma new_all_true identity authorizedKeys port s signer :
  new identity authorizedKeys port = Returned (s, signer) ->
  all_true (authorizedKeysMap s).
Proof.
  unfold NewSshServer.
  destruct identity as [hk|]; [|discriminate].
  destruct authorizedKeys as [bytes|]; [|discriminate].
  destruct (load _ bytes ∅) as [m| | |] eqn:E; try discriminate.
  destruct (ParsePrivateKey hk); [|discriminate].
  intros [= <- _]; simpl.
  eapply load_all_true; [|exact E]. intros k v. now rewrite lookup_empty.
Qed.

(** C6.  For a server built by [NewSshServer], the public-key callback
    permits a key exactly when the wire-marshalled form of the key is in the
    set of authorised keys loaded at startup; the permissions then carry the
    SHA-256 fingerprint of the key under [pubkey-fp] and nothing else; a key
    outside the set gets the error return; and when the authorised-keys file
    is empty, every key is refused. *)
Theorem keyAuth_permits_iff_authorised
        identity authorizedKeys port s signer conn pubKey :
  NewSshServer ParseAuthorizedKey ParsePrivateKey identity authorizedKeys port
  = Returned (s, signer) ->
  (ssh.Marshal pubKey ∈ dom (authorizedKeysMap s) <->
   snd (keyAuth FingerprintSHA256 s conn pubKey)
   = inl {| ssh.Extensions := {[ "pubkey-fp" := FingerprintSHA256 pubKey ]} |})
  /\ (ssh.Marshal pubKey ∉ dom (authorizedKeysMap s) <->
      exists msg, snd (keyAuth FingerprintSHA256 s conn pubKey) = inr msg)
  /\ (authorizedKeys = Some EmptyString ->
      forall conn' key',
        exists msg, snd (keyAuth FingerprintSHA256 s conn' key') = inr msg).
Proof.
  intros Hnew. pose proof (new_all_true _ _ _ _ _ Hnew) as Htrue.
  pose proof (map_get_dom (authorizedKeysMap s) (ssh.Marshal pubKey) Htrue)
    as Hdom.
  unfold keyAuth; simpl. repeat split.
  - intros Hin. apply Hdom in Hin. now rewrite Hin.
  - destruct (map_get _ _); [intros _; now apply Hdom | discriminate].
  - intros Hnot. destruct (map_get _ _) eqn:E; [|eauto].
    exfalso. apply Hnot. now apply Hdom.
  - intros [msg Hmsg] Hin. apply Hdom in Hin. rewrite Hin in Hmsg.
    discriminate.
  - intros -> conn' key'. revert Hnew. unfold NewSshServer.
    destruct identity as [hk|]; [|discriminate]. simpl.
    destruct (ParsePrivateKey hk); [|discriminate].
    intros [= <- _]. simpl. unfold map_get. rewrite lookup_empty. simpl.
    eauto.
Qed.

End KeyAuth.

Lemma keyAuth_permits_iff_authorised_witness :
  NewSshServer examples.line_ParseAuthorizedKey examples.line_ParsePrivateKey
    (Some "hostkey") (Some examples.authorized_keys_file) "2222"
  = Returned (examples.server1, examples.host_signer) /\
  snd (keyAuth examples.tag_Fingerprint examples.server1 examples.conn_meta
         examples.keyA)
  = inl {| ssh.Extensions := {[ "pubkey-fp" := "SHA256:AAAA" ]} |} /\
  exists msg,
    snd (keyAuth examples.tag_Fingerprint examples.server1 examples.conn_meta
           examples.keyC) = inr msg.
Proof.
  assert (Hnew :
    NewSshServer examples.line_ParseAuthorizedKey examples.line_ParsePrivateKey
      (Some "hostkey") (Some examples.authorized_keys_file) "2222"
    = Returned (examples.server1, examples.host_signer)) by reflexivity.
  split; [exact Hnew|]. split.
  - apply (keyAuth_permits_iff_authorised examples.tag_Fingerprint
             _ _ _ _ _ _ _ examples.conn_meta examples.keyA Hnew).
    apply elem_of_dom. eexists. reflexivity.
  - destruct (keyAuth_permits_iff_authorised examples.tag_Fingerprint
                _ _ _ _ _ _ _ examples.conn_meta examples.keyC Hnew)
      as (_ & Hrefuse & _).
    apply Hrefuse. intros Hin. apply elem_of_dom in Hin as [v Hv]. discriminate.
Defined.

(** *** The request router *)

Lemma handleRequest_no_reply s req r ok :
  ~ In (EvReply r ok) (handleRequest s req).
Proof.
  unfold handleRequest.
  destruct (String.eqb _ _); simpl; intros [H | []]; discriminate.
Qed.

(** C4, as the code has it.  A [tcpip-forward] request is handed to
    [handleTcpIpForward] together with the server's [client] field; a
    request of any other type is logged; nothing else is done for a
    request, and in particular no reply, of success or of failure, is ever
    sent, whether or not the request asks for one. *)
Theorem handleRequests_forwards_or_logs (s : SshServer)
        (reqs : list ssh.Request) :
  (forall req, In req reqs -> ssh.Type_ req = "tcpip-forward" ->
               In (EvForward req (client s)) (handleRequests s reqs)) /\
  (forall req, In req reqs -> ssh.Type_ req <> "tcpip-forward" ->
               In (EvLogRequest req) (handleRequests s reqs)) /\
  (forall req ok, ~ In (EvReply req ok) (handleRequests s reqs)) /\
  length (handleRequests s reqs) = length reqs.
Proof.
  unfold handleRequests. repeat split.
  - intros req Hin Hty. apply in_flat_map. exists req. split; [assumption|].
    unfold handleRequest. rewrite Hty. simpl. now left.
  - intros req Hin Hty. apply in_flat_map. exists req. split; [assumption|].
    unfold handleRequest.
    destruct (String.eqb_spec (ssh.Type_ req) "tcpip-forward");
      [contradiction | now left].
  - intros req ok Hin. apply in_flat_map in Hin as (r & _ & Hin).
    now apply handleRequest_no_reply in Hin.
  - induction reqs as [|r reqs IH]; [reflexivity|]. simpl.
    rewrite length_app, IH. unfold handleRequest.
    now destruct (String.eqb _ _).
Qed.

(** C4, as the specification words it, fails: a request that is not
    [tcpip-forward] and asks for a reply is logged and gets no reply. *)
Lemma handleRequests_reply_counterexample :
  ssh.Type_ examples.req_keepalive <> "tcpip-forward" /\
  ssh.WantReply examples.req_keepalive = true /\
  handleRequests examples.server1 [examples.req_keepalive]
  = [EvLogRequest examples.req_keepalive] /\
  ~ In (EvReply examples.req_keepalive false)
       (handleRequests examples.server1 [examples.req_keepalive]).
Proof.
  repeat split; try discriminate.
  intros [H | []]; discriminate.
Qed.

Lemma handleRequests_forwards_or_logs_witness :
  In (EvForward examples.req_forward None)
     (handleRequests examples.server1
        [examples.req_keepalive; examples.req_forward]) /\
  In (EvLogRequest examples.req_keepalive)
     (handleRequests examples.server1
        [examples.req_keepalive; examples.req_forward]).
Proof.
  destruct (handleRequests_forwards_or_logs examples.server1
              [examples.req_keepalive; examples.req_forward])
    as (Hf & Hl & _).
  split.
  - apply (Hf examples.req_forward); [simpl; auto | reflexivity].
  - apply (Hl examples.req_keepalive); [simpl; auto | discriminate].
Defined.

(** *** The accept loop and the single [client] field *)

Lemma Start_run_snoc st ins i :
  Start_run st (ins ++ [i]) = Start_step (Start_run st ins) i.
Proof. unfold Start_run. now rewrite fold_left_app. Qed.

Lemma latest_peer_snoc ins i :
  latest_peer (ins ++ [i])
  = match i with InHandshake c => Some c | _ => latest_peer ins end.
Proof. unfold latest_peer. now rewrite fold_left_app. Qed.

Lemma crashed_stays st i :
  crashed (Start_step st i) = false -> crashed st = false.
Proof.
  unfold Start_step. destruct (crashed st) eqn:E; [now rewrite E | reflexivity].
Qed.

(** While the accept loop runs, the [client] field is the connection of the
    latest handshake, and a live router implies that a handshake happened. *)
Lemma Start_run_client s0 ins :
  let st := Start_run (listening s0) ins in
  crashed st = false ->
  client (srv st) = match latest_peer ins with
                    | Some c => Some c
                    | None => client s0
                    end /\
  (forall peer, peer ∈ routers st -> latest_peer ins <> None).
Proof.
  induction ins as [|i ins IH] using rev_ind; simpl.
  - intros _. split; [reflexivity|]. intros peer Hin. inversion Hin.
  - rewrite Start_run_snoc, latest_peer_snoc. intros Hc.
    pose proof (crashed_stays _ _ Hc) as Hc'.
    destruct (IH Hc') as [IHc IHr]. clear IH.
    unfold Start_step in *. rewrite Hc' in *.
    destruct i as [| |c|peer req|peer]; simpl in *; try discriminate.
    + split; assumption.
    + split; [reflexivity|]. intros; discriminate.
    + case_bool_decide; simpl; split; assumption.
    + split; [assumption|]. intros p Hp.
      apply list_elem_of_filter in Hp as [_ Hp]. exact (IHr p Hp).
Qed.

(** C10.  The server has one [client] field.  As long as the accept loop
    runs, after any sequence of handshakes, requests and closed streams the
    field holds the connection of the latest completed handshake; and a
    [tcpip-forward] request delivered on the request stream of any peer
    whose router is alive, an earlier peer included, is handed to
    [handleTcpIpForward] with the connection of that latest handshake.
    Steps of goroutines are taken one at a time. *)
Theorem forward_serviced_against_latest_peer
        (s0 : SshServer) (ins : list Input)
        (peer : ssh.ServerConn) (req : ssh.Request) :
  let st := Start_run (listening s0) ins in
  crashed st = false ->
  peer ∈ routers st ->
  ssh.Type_ req = "tcpip-forward" ->
  exists c,
    latest_peer ins = Some c /\
    client (srv st) = Some c /\
    trace (Start_run (listening s0) (ins ++ [InRequest peer req]))
    = trace st ++ [EvForward req (Some c)].
Proof.
  intros st Hc Hin Hty. subst st.
  destruct (Start_run_client s0 ins Hc) as [Hcl Hr].
  specialize (Hr peer Hin).
  destruct (latest_peer ins) as [c|] eqn:E; [|contradiction].
  exists c. repeat split; [assumption|].
  rewrite Start_run_snoc. unfold Start_step. rewrite Hc.
  rewrite bool_decide_eq_true_2 by assumption. simpl.
  unfold handleRequest. rewrite Hty. simpl. now rewrite Hcl.
Qed.

Lemma forward_serviced_against_latest_peer_witness :
  trace (Start_run (listening examples.server1)
           [InHandshake examples.peerA; InHandshake examples.peerB;
            InRequest examples.peerA examples.req_forward])
  = [EvLogConnection examples.peerA; EvLogConnection examples.peerB;
     EvForward examples.req_forward (Some examples.peerB)].
Proof.
  destruct (forward_serviced_against_latest_peer examples.server1
              [InHandshake examples.peerA; InHandshake examples.peerB]
              examples.peerA examples.req_forward)
    as (c & Hc & _ & Ht).
  - reflexivity.
  - simpl. apply list_elem_of_In. simpl. auto.
  - reflexivity.
  - injection Hc as <-. exact Ht.
Defined.

End sshd_props.

(** ** The connection manager *)

Module sshc_props.

Import sshc.

Section Supervision.

Variable HomeDir : string.

(** *** Status, latch and client handle *)

Lemma boot_invariant conf u h x e :
  loop_invariant (boot (NewSshConnection conf u h x e)).
Proof. split; [reflexivity | discriminate]. Qed.

Ltac crush_invariant :=
  intros;
  repeat match goal with
         | H : _ /\ _ |- _ => destruct H
         end;
  unfold STATUS_CONNECTED, STATUS_CONNECTING, STATUS_CLOSED in *;
  simpl in *; repeat split; try lia; try congruence; try discriminate; auto.

Lemma step_invariant s a :
  loop_invariant s -> loop_invariant (step HomeDir s a).
Proof.
  destruct s as [c p t]. unfold loop_invariant.
  destruct a as [|r| | |]; simpl.
  - destruct p; simpl; crush_invariant.
  - unfold Start_step, connect, resetConn_close; simpl.
    destruct p; simpl; try solve [crush_invariant].
    + destruct (isStopped c); simpl; crush_invariant.
    + destruct r; simpl; crush_invariant.
    + intros (Hc & Hs & Hcl). rewrite Hc. simpl. crush_invariant.
    + intros (Hc & Hcl). destruct (Client c) eqn:E; [|congruence].
      destruct r; simpl; rewrite ?E; crush_invariant.
    + destruct (Client c) eqn:E; simpl; rewrite ?E; crush_invariant.
  - destruct p; simpl; crush_invariant.
  - unfold resetConn_close.
    destruct (Client c) eqn:E; destruct p; simpl; rewrite ?E; crush_invariant.
  - destruct p; simpl; crush_invariant.
Qed.

Lemma exec_invariant script : forall s,
  loop_invariant s -> loop_invariant (exec HomeDir s script).
Proof.
  induction script as [|a script IH]; intros s Hs; simpl; [assumption|].
  apply IH. now apply step_invariant.
Qed.


(** A call of [Stop] that nothing interrupts is the three atomic parts in
    their order. *)
Lemma Stop_is_three_steps s :
  conn (exec HomeDir s [StopStore; StopClose; StopStatus]) = fst (Stop (conn s)).
Proof.
  destruct s as [c p t]. unfold Stop, resetConn, exec. simpl.
  unfold resetConn_close. simpl. destruct (Client c); reflexivity.
Qed.

(** [Stop] closes the client and leaves the handle where it is. *)
Lemma Stop_keeps_handle c cl :
  Client c = Some cl ->
  connectionStatus (fst (Stop c)) = STATUS_CLOSED /\
  Client (fst (Stop c))
  = Some {| ssh.clientId := ssh.clientId cl; ssh.closed := true |}.
Proof.
  intros H. unfold Stop, resetConn, resetConn_close. simpl. rewrite H.
  split; reflexivity.
Qed.

(** *** The supervision loop, round by round *)


Lemma Sys_eq c c' p t t' :
  c = c' -> t = t' ->
  {| conn := c; pc := p; trace := t |} = {| conn := c'; pc := p; trace := t' |}.
Proof. now intros -> ->. Qed.










End Supervision.




(** *** The known-hosts lookup *)

Section Lookup.

Import knownhosts.

Lemma knownKeys_seen db host : forall seen k,
  In k seen -> In k (knownKeys db host seen).
Proof.
  induction db as [|l db IH]; intros seen k Hin; simpl; [assumption|].
  destruct l as [h k'| |]; try (now apply IH).
  destruct (_ && _); apply IH; [|assumption].
  apply in_or_app. now left.
Qed.

Lemma knownKeys_recorded db host : forall seen k,
  In k (knownKeys db host seen) -> In k seen \/ In (Known host k) db.
Proof.
  induction db as [|l db IH]; intros seen k; simpl; [now left|].
  destruct l as [h k'| |].
  - destruct (String.eqb_spec h host) as [->|Hne]; simpl.
    + destruct (negb _); intros Hin; apply IH in Hin.
      * destruct Hin as [Hin|Hin]; [|now right; right].
        apply in_app_or in Hin as [Hin|[<-|[]]]; [now left|].
        right. now left.
      * destruct Hin as [Hin|Hin]; [now left | now right; right].
    + intros Hin. apply IH in Hin as [Hin|Hin]; [now left | now right; right].
  - intros Hin. apply IH in Hin as [Hin|Hin]; [now left | now right; right].
  - intros Hin. apply IH in Hin as [Hin|Hin]; [now left | now right; right].
Qed.

Lemma knownKeys_nonempty db host k0 : forall seen,
  In (Known host k0) db -> knownKeys db host seen <> [].
Proof.
  assert (Hgrow : forall db seen k, In k seen -> knownKeys db host seen <> []).
  { intros db' seen k Hin E. apply (knownKeys_seen db' host) in Hin.
    rewrite E in Hin. destruct Hin. }
  induction db as [|l db IH]; intros seen Hin; [destruct Hin|].
  destruct Hin as [->|Hin]; simpl.
  - rewrite String.eqb_refl. simpl.
    destruct (existsb _ seen) eqn:E; simpl.
    + apply existsb_exists in E as (k & Hk & _). now apply (Hgrow db seen k).
    + apply (Hgrow db (seen ++ [k0]) k0). apply in_or_app. right. now left.
  - destruct l as [h k'| |]; try (now apply IH).
    destruct (_ && _); now apply IH.
Qed.

(** A host without a line in the store is answered with an empty [Want]. *)
Lemma check_unknown db host key :
  existsb (is_revoked key) db = false ->
  (forall k, ~ In (Known host k) db) ->
  check db host key = Some (KeyError []).
Proof.
  intros Hrev Hno. unfold check. rewrite Hrev.
  destruct (knownKeys db host []) as [|k ks] eqn:E; [reflexivity|].
  exfalso. destruct (knownKeys_recorded db host [] k) as [[]|Hin].
  - rewrite E. now left.
  - exact (Hno k Hin).
Qed.

(** A host recorded with other keys only is answered with the recorded
    keys as [Want]. *)
Lemma check_mismatch db host key k0 :
  existsb (is_revoked key) db = false ->
  In (Known host k0) db ->
  (forall k, In (Known host k) db -> ssh.Marshal k <> ssh.Marshal key) ->
  exists want,
    check db host key = Some (KeyError want) /\ want <> [] /\
    (forall k, In k want -> In (Known host k) db).
Proof.
  intros Hrev Hin Hdiff. unfold check. rewrite Hrev.
  pose proof (knownKeys_nonempty db host k0 [] Hin) as Hne.
  assert (Hrec : forall k, In k (knownKeys db host []) -> In (Known host k) db).
  { intros k Hk. now apply knownKeys_recorded in Hk as [[]|Hk]. }
  destruct (knownKeys db host []) as [|k ks] eqn:E; [congruence|].
  exists (k :: ks). repeat split; try assumption.
  destruct (find _ (k :: ks)) as [k1|] eqn:F; [|reflexivity].
  apply find_some in F as [F _].
  destruct (String.eqb_spec (ssh.Marshal k1) (ssh.Marshal key)) as [Heq|_];
    [|reflexivity].
  exfalso. exact (Hdiff k1 (Hrec k1 F) Heq).
Qed.

End Lookup.

(** *** The host-key verifier *)

Section Verifier.

Import knownhosts.

Variable FingerprintSHA256 : ssh.PublicKey -> string.
Variable SerializePublicKey : ssh.PublicKey -> string.
Variable creatable : string -> bool.

Lemma New_lines f path file :
  f !! path = Some file -> forallb well_formed (lines file) = true ->
  New f path = Some (lines file).
Proof. intros Hf Hwf. unfold New. now rewrite Hf, Hwf. Qed.

(** C3.  Strict verification, the store parses, the offered key is not
    revoked, the host has a line in the store and every key recorded for
    the host differs from the offered one: the callback returns a key error
    whose [Want] is not empty and holds recorded keys of the host only,
    whatever [fail] is, and the files are what they were. *)
Theorem mismatch_returns_error_and_keeps_store
        (s : SshConnection) (fail : bool) (host : string)
        (key k0 : ssh.PublicKey) (w : World) (db : list Line) :
  insecure s = false ->
  New (fs w) (knownHosts s) = Some db ->
  existsb (is_revoked key) db = false ->
  In (Known host k0) db ->
  (forall k, In (Known host k) db -> ssh.Marshal k <> ssh.Marshal key) ->
  exists want w',
    verifyHostCallback FingerprintSHA256 SerializePublicKey creatable
      s fail host key w = (w', Returned (Some (KeyError want))) /\
    want <> [] /\
    (forall k, In k want -> In (Known host k) db) /\
    fs w' = fs w.
Proof.
  intros Hsec Hnew Hrev Hin Hdiff.
  destruct (check_mismatch db host key k0 Hrev Hin Hdiff)
    as (want & Hchk & Hne & Hrec).
  exists want. unfold verifyHostCallback. rewrite Hsec. simpl fs.
  rewrite Hnew. unfold judge. rewrite Hchk.
  destruct want as [|k ks]; [congruence|]. simpl.
  eexists. repeat split; try assumption.
Qed.

(** Whenever the callback returns a key error with a non-empty [Want], it
    has not written to any file. *)
Lemma mismatch_never_writes s fail host key w w' want :
  verifyHostCallback FingerprintSHA256 SerializePublicKey creatable
    s fail host key w = (w', Returned (Some (KeyError want))) ->
  want <> [] -> fs w' = fs w.
Proof.
  assert (Hjudge : forall db w0 w1,
    judge FingerprintSHA256 SerializePublicKey s fail host key db w0
    = (w1, Returned (Some (KeyError want))) ->
    want <> [] -> check db host key <> Some (KeyError []) /\ fs w1 = fs w0).
  { intros db w0 w1. unfold judge.
    destruct (check db host key) as [[wt|rk|msg]|] eqn:E; try discriminate.
    destruct wt as [|k ks]; simpl.
    - destruct fail; [discriminate|].
      unfold AddHostKeyToKnownHosts; simpl.
      destruct (fs w0 !! knownHosts s); discriminate.
    - intros [= <- <-] _. split; [discriminate | reflexivity]. }
  unfold verifyHostCallback.
  destruct (insecure s); [discriminate|]. simpl fs.
  destruct (New (fs w) (knownHosts s)) as [db|] eqn:E.
  - intros H Hne. now apply Hjudge in H as [_ ->].
  - unfold OpenFile_CREATE. simpl fs.
    unfold New in E.
    destruct (fs w !! knownHosts s) as [file|] eqn:F.
    + unfold New. simpl fs. rewrite F.
      destruct (forallb well_formed (lines file)); discriminate.
    + destruct (creatable _); [|discriminate]. unfold New. simpl fs.
      rewrite lookup_insert_eq. simpl.
      intros H Hne. apply Hjudge in H as [H _]; [|assumption].
      now destruct H.
Qed.

(** C2, as the code has it.  Strict verification, the store parses, the
    offered key is not revoked and the host has no line in the store.  The
    callback built for a dial ([connect], [jumpHostConnect]) ends the
    process with a fatal log line and writes nothing.  The callback built
    by [GrabPubKey] logs a warning that holds the serialised key, appends a
    line for the host and the key to the store, and accepts. *)
Theorem unknown_host_fatal_on_dial_added_on_grab
        (s : SshConnection) (host : string) (key : ssh.PublicKey)
        (w : World) (file : File) :
  insecure s = false ->
  fs w !! knownHosts s = Some file ->
  forallb well_formed (lines file) = true ->
  existsb (is_revoked key) (lines file) = false ->
  (forall k, ~ In (Known host k) (lines file)) ->
  (exists w1,
     verifyHostCallback FingerprintSHA256 SerializePublicKey creatable
       s callback_of_connect host key w = (w1, FatalExit) /\
     fs w1 = fs w) /\
  (exists w2,
     verifyHostCallback FingerprintSHA256 SerializePublicKey creatable
       s callback_of_GrabPubKey host key w = (w2, Returned None) /\
     fs w2 = <[knownHosts s :=
                 {| perm := perm file;
                    lines := lines file ++ [Known host key] |}]> (fs w) /\
     last (logged w2) = Some (warning SerializePublicKey host key)).
Proof.
  intros Hsec Hf Hwf Hrev Hno.
  pose proof (New_lines _ _ _ Hf Hwf) as Hnew.
  pose proof (check_unknown _ host key Hrev Hno) as Hchk.
  unfold verifyHostCallback. rewrite Hsec. simpl fs. rewrite Hnew.
  unfold judge. rewrite Hchk. simpl. split.
  - eexists. split; reflexivity.
  - unfold AddHostKeyToKnownHosts. simpl fs. rewrite Hf.
    eexists. split; [reflexivity|]. split; [reflexivity|].
    simpl. apply last_snoc.
Qed.

(** C7.  Strict verification and no file at the path of the store, where a
    file can be created: the callback goes on as it does for the world in
    which the file exists, empty, with mode 0600, the lookup being made
    again on that file (it reads no line); and when the callback is over
    the file exists with mode 0600. *)
Theorem missing_store_created_then_retried
        (s : SshConnection) (fail : bool) (host : string)
        (key : ssh.PublicKey) (w : World) :
  insecure s = false ->
  fs w !! knownHosts s = None ->
  creatable (knownHosts s) = true ->
  let created :=
    <[knownHosts s := {| perm := mode_0600; lines := [] |}]> (fs w) in
  let w2 :=
    with_fs created
      (say ("error while parsing 'known_hosts' file: " +:+ knownHosts s)
           (say ("using known_hosts file at " +:+ knownHosts s) w)) in
  New created (knownHosts s) = Some [] /\
  verifyHostCallback FingerprintSHA256 SerializePublicKey creatable
    s fail host key w
  = judge FingerprintSHA256 SerializePublicKey s fail host key [] w2 /\
  exists f,
    fs (fst (verifyHostCallback FingerprintSHA256 SerializePublicKey
               creatable s fail host key w)) !! knownHosts s = Some f /\
    perm f = mode_0600.
Proof.
  intros Hsec Hf Hcr created w2.
  assert (Hnew : New created (knownHosts s) = Some []).
  { unfold New, created. now rewrite lookup_insert_eq. }
  assert (Hrun :
    verifyHostCallback FingerprintSHA256 SerializePublicKey creatable
      s fail host key w
    = judge FingerprintSHA256 SerializePublicKey s fail host key [] w2).
  { unfold verifyHostCallback. rewrite Hsec. simpl fs.
    unfold New at 1. rewrite Hf.
    unfold OpenFile_CREATE. simpl fs. rewrite Hf, Hcr.
    simpl fs. fold created. rewrite Hnew. reflexivity. }
  repeat split; try assumption.
  rewrite Hrun. unfold judge. simpl.
  destruct fail; simpl.
  - eexists. split; [apply lookup_insert_eq | reflexivity].
  - unfold AddHostKeyToKnownHosts. simpl fs. unfold created.
    rewrite lookup_insert_eq. simpl.
    eexists. split; [apply lookup_insert_eq | reflexivity].
Qed.

(** When the file cannot be created, the process ends and no file is
    written. *)
Lemma missing_store_not_creatable s fail host key w :
  insecure s = false ->
  fs w !! knownHosts s = None ->
  creatable (knownHosts s) = false ->
  exists w',
    verifyHostCallback FingerprintSHA256 SerializePublicKey creatable
      s fail host key w = (w', FatalExit) /\ fs w' = fs w.
Proof.
  intros Hsec Hf Hcr. unfold verifyHostCallback. rewrite Hsec. simpl fs.
  unfold New. rewrite Hf. unfold OpenFile_CREATE. simpl fs. rewrite Hf, Hcr.
  eexists. split; reflexivity.
Qed.

End Verifier.

(** *** The auth provider *)

Section Auth.

Variable LoadIdentityFile : string -> option ssh.Signer.

(** C8.  The list of methods is in the order public key, password,
    interactive prompt, each at most once: the public-key method is there
    exactly when the identity file loads, with the signer loaded; the
    password method is there exactly when the configured password is not
    empty, with that password; the interactive prompt is always there, and
    is the last. *)
Theorem getAuthMethods_order (s : SshConnection) :
  let methods := getAuthMethods LoadIdentityFile s in
  StronglySorted lt (map rank methods) /\
  (forall signer, In (ssh.PublicKeys signer) methods <->
                  LoadIdentityFile (identity s) = Some signer) /\
  (forall secret, In (ssh.Password secret) methods <->
                  secret = password s /\ secret <> EmptyString) /\
  (forall p, In (ssh.PasswordCallback p) methods <-> p = prompt) /\
  last methods = Some (ssh.PasswordCallback prompt).
Proof.
  unfold getAuthMethods.
  destruct (LoadIdentityFile (identity s)) as [signer|];
    destruct (String.eqb_spec (password s) EmptyString) as [Hpw|Hpw];
    simpl; (split; [repeat constructor|]).
  all: repeat split; intros; simpl in *;
    intuition (subst; try discriminate; try congruence).
Qed.

End Auth.

(** C2, as the specification words it, fails.  With an empty store, the
    callback of a dial neither appends the offered key nor accepts it: the
    process ends and the store stays empty.  The callback of [GrabPubKey]
    does write: afterwards the store holds the offered key. *)
Lemma unknown_host_counterexample :
  snd (verifyHostCallback examples.tag_Fingerprint examples.tag_Serialize
         examples.always_creatable examples.manager callback_of_connect
         examples.server_name examples.keyA examples.world_empty_store)
  = FatalExit /\
  fs (fst (verifyHostCallback examples.tag_Fingerprint examples.tag_Serialize
             examples.always_creatable examples.manager callback_of_connect
             examples.server_name examples.keyA examples.world_empty_store))
  = fs examples.world_empty_store /\
  snd (verifyHostCallback examples.tag_Fingerprint examples.tag_Serialize
         examples.always_creatable examples.manager callback_of_GrabPubKey
         examples.server_name examples.keyA examples.world_empty_store)
  = Returned None /\
  fs (fst (verifyHostCallback examples.tag_Fingerprint examples.tag_Serialize
             examples.always_creatable examples.manager callback_of_GrabPubKey
             examples.server_name examples.keyA examples.world_empty_store))
    !! knownHosts examples.manager
  = Some {| knownhosts.perm := mode_0600;
            knownhosts.lines :=
              [knownhosts.Known examples.server_name examples.keyA] |}.
Proof. repeat split; reflexivity. Qed.

Lemma unknown_host_fatal_on_dial_added_on_grab_witness :
  (exists w1,
     verifyHostCallback examples.tag_Fingerprint examples.tag_Serialize
       examples.always_creatable examples.manager callback_of_connect
       examples.server_name examples.keyA examples.world_empty_store
     = (w1, FatalExit)) /\
  (exists w2,
     verifyHostCallback examples.tag_Fingerprint examples.tag_Serialize
       examples.always_creatable examples.manager callback_of_GrabPubKey
       examples.server_name examples.keyA examples.world_empty_store
     = (w2, Returned None)).
Proof.
  destruct (unknown_host_fatal_on_dial_added_on_grab
              examples.tag_Fingerprint examples.tag_Serialize
              examples.always_creatable examples.manager
              examples.server_name examples.keyA examples.world_empty_store
              {| knownhosts.perm := mode_0600; knownhosts.lines := [] |}
              eq_refl eq_refl eq_refl eq_refl (fun k H => H))
    as [(w1 & H1 & _) (w2 & H2 & _)].
  split; [exists w1; exact H1 | exists w2; exact H2].
Defined.

Lemma mismatch_returns_error_and_keeps_store_witness :
  exists want w',
    verifyHostCallback examples.tag_Fingerprint examples.tag_Serialize
      examples.always_creatable examples.manager callback_of_connect
      examples.server_name examples.keyA examples.world_other_key
    = (w', Returned (Some (knownhosts.KeyError want))) /\
    want <> [] /\ fs w' = fs examples.world_other_key.
Proof.
  destruct (mismatch_returns_error_and_keeps_store
              examples.tag_Fingerprint examples.tag_Serialize
              examples.always_creatable examples.manager callback_of_connect
              examples.server_name examples.keyA examples.keyB
              examples.world_other_key
              [knownhosts.Known examples.server_name examples.keyB]
              eq_refl eq_refl eq_refl (or_introl eq_refl))
    as (want & w' & H1 & H2 & _ & H4).
  - intros k [H|[]]. injection H as <-. discriminate.
  - exists want, w'. repeat split; assumption.
Defined.

Lemma missing_store_created_then_retried_witness :
  exists f,
    fs (fst (verifyHostCallback examples.tag_Fingerprint
               examples.tag_Serialize examples.always_creatable
               examples.manager callback_of_GrabPubKey
               examples.server_name examples.keyA examples.world_no_store))
      !! knownHosts examples.manager = Some f /\
    knownhosts.perm f = mode_0600.
Proof.
  exact (proj2 (proj2 (missing_store_created_then_retried
                         examples.tag_Fingerprint examples.tag_Serialize
                         examples.always_creatable examples.manager
                         callback_of_GrabPubKey examples.server_name
                         examples.keyA examples.world_no_store
                         eq_refl eq_refl eq_refl))).
Defined.

Lemma getAuthMethods_order_witness :
  getAuthMethods examples.load_identity examples.manager_with_identity
  = [ssh.PublicKeys {| ssh.SignerKey := examples.keyA |};
     ssh.Password "secret";
     ssh.PasswordCallback prompt] /\
  getAuthMethods examples.load_identity examples.manager
  = [ssh.Password "secret"; ssh.PasswordCallback prompt] /\
  StronglySorted lt
    (map rank (getAuthMethods examples.load_identity
                 examples.manager_with_identity)).
Proof.
  split; [reflexivity|]. split; [reflexivity|].
  exact (proj1 (getAuthMethods_order examples.load_identity
                  examples.manager_with_identity)).
Defined.

End sshc_props.

(* ================================================================== *)
(** * Further properties *)
(* ================================================================== *)

(** ** The embedded server: loading keys, channels, the accept loop *)

Module sshd_more.

Import sshd.

Section Loading.

Variable FingerprintSHA256 : ssh.PublicKey -> string.
Variable ParseAuthorizedKey : string -> option (ssh.PublicKey * string).
Variable ParsePrivateKey : string -> option ssh.Signer.

Hypothesis parser_consumes : consumes ParseAuthorizedKey.

Lemma nonempty_length b : b <> EmptyString -> (0 <? String.length b)%nat = true.
Proof. destruct b; [congruence | reflexivity]. Qed.

Lemma load_extracts bytes ks :
  extracts ParseAuthorizedKey bytes ks ->
  forall fuel m,
    (String.length bytes <= fuel)%nat ->
    loadAuthorizedKeys ParseAuthorizedKey fuel bytes m
    = Returned (fold_left (fun acc k => <[ssh.Marshal k := true]> acc) ks m).
Proof.
  induction 1 as [|b k rest ks Hne Hp _ IH]; intros fuel m Hlen.
  - destruct fuel; reflexivity.
  - destruct fuel as [|fuel].
    + destruct b; [congruence | simpl in Hlen; lia].
    + simpl. rewrite (nonempty_length b Hne), Hp. simpl.
      apply IH. apply parser_consumes in Hp. lia.
Qed.

Lemma load_rejects bytes :
  rejects ParseAuthorizedKey bytes ->
  forall fuel m,
    (String.length bytes <= fuel)%nat ->
    loadAuthorizedKeys ParseAuthorizedKey fuel bytes m = FatalExit.
Proof.
  induction 1 as [b Hne Hp | b k rest Hne Hp _ IH]; intros fuel m Hlen;
    (destruct fuel as [|fuel];
     [destruct b; [congruence | simpl in Hlen; lia]|]);
    simpl; rewrite (nonempty_length b Hne), Hp; [reflexivity|].
  apply IH. apply parser_consumes in Hp. lia.
Qed.

Lemma map_get_insert_true m k x :
  map_get (<[k := true]> m) x = true <-> k = x \/ map_get m x = true.
Proof.
  unfold map_get. destruct (decide (k = x)) as [->|Hne].
  - rewrite lookup_insert_eq. simpl. tauto.
  - rewrite lookup_insert_ne by assumption. tauto.
Qed.

Lemma map_get_loaded ks : forall m x,
  map_get (fold_left (fun acc k => <[ssh.Marshal k := true]> acc) ks m) x
  = true
  <-> map_get m x = true \/ exists k, In k ks /\ ssh.Marshal k = x.
Proof.
  induction ks as [|k ks IH]; intros m x; simpl.
  - split; [now left | intros [H | (k & [] & _)]; exact H].
  - rewrite IH, map_get_insert_true. split.
    + intros [[H|H]|(k' & Hin & Hk)]; eauto.
    + intros [H|(k' & [<-|Hin] & Hk)]; eauto.
Qed.

(** X1.  When the host key parses and repeated extraction from the bytes of
    the authorised-keys file gives the keys [ks], [NewSshServer] returns a
    server for the given port with no client, and the keys the server
    authorises are exactly those with the wire form of a key of [ks]:
    duplicates and the order of the file do not matter. *)
Theorem NewSshServer_loads_exactly
        (hostPrivateKey bytes port : string) (signer : ssh.Signer)
        (ks : list ssh.PublicKey) :
  extracts ParseAuthorizedKey bytes ks ->
  ParsePrivateKey hostPrivateKey = Some signer ->
  exists s,
    NewSshServer ParseAuthorizedKey ParsePrivateKey
      (Some hostPrivateKey) (Some bytes) port = Returned (s, signer) /\
    client s = None /\ tcpPort s = port /\
    forall conn pubKey,
      (exists perms,
         snd (keyAuth FingerprintSHA256 s conn pubKey) = inl perms)
      <-> exists k, In k ks /\ ssh.Marshal k = ssh.Marshal pubKey.
Proof.
  intros Hex Hpk. unfold NewSshServer.
  rewrite (load_extracts bytes ks Hex) by lia. rewrite Hpk.
  eexists. split; [reflexivity|]. simpl. repeat split.
  - intros [perms Hp]. unfold keyAuth in Hp. simpl in Hp.
    destruct (map_get _ _) eqn:E; [|discriminate].
    apply map_get_loaded in E as [E|E]; [|exact E].
    unfold map_get in E. rewrite lookup_empty in E. discriminate.
  - intros Hk. unfold keyAuth. simpl.
    assert (E : map_get
                  (fold_left (fun acc k => <[ssh.Marshal k := true]> acc) ks ∅)
                  (ssh.Marshal pubKey) = true)
      by (apply map_get_loaded; now right).
    rewrite E. eauto.
Qed.

(** X2.  When repeated extraction from the authorised-keys file meets an
    error at any key, the first or a later one, [NewSshServer] ends the
    process with [log.Fatal]: no server is built from the keys read before
    the error, and this happens before the host key is parsed. *)
Theorem NewSshServer_bad_key_is_fatal (hostPrivateKey bytes port : string) :
  rejects ParseAuthorizedKey bytes ->
  NewSshServer ParseAuthorizedKey ParsePrivateKey
    (Some hostPrivateKey) (Some bytes) port = FatalExit.
Proof.
  intros Hrej. unfold NewSshServer.
  now rewrite (load_rejects bytes Hrej) by lia.
Qed.

End Loading.

Lemma split_at_length c s l r :
  utils.split_at c s = Some (l, r) ->
  String.length s = (String.length l + 1 + String.length r)%nat.
Proof.
  revert l r. induction s as [|a s IH]; intros l r; simpl; [discriminate|].
  destruct (Ascii.eqb a c).
  - intros [= <- <-]. simpl. lia.
  - destruct (utils.split_at c s) as [[l' r']|]; [|discriminate].
    intros [= <- <-]. simpl. rewrite (IH l' r' eq_refl). lia.
Qed.

Lemma line_parser_consumes : consumes examples.line_ParseAuthorizedKey.
Proof.
  intros b k rest. unfold examples.line_ParseAuthorizedKey.
  destruct (utils.split_at examples.nl b) as [[l r]|] eqn:E.
  - destruct (String.eqb l EmptyString); [discriminate|].
    intros [= _ <-]. apply split_at_length in E. lia.
  - destruct b; simpl; [discriminate|]. intros [= _ <-]. simpl. lia.
Qed.

Lemma example_file_extracts :
  extracts examples.line_ParseAuthorizedKey examples.authorized_keys_file
           [examples.keyA; examples.keyB].
Proof.
  eapply extracts_key; [discriminate | reflexivity |].
  eapply extracts_key; [discriminate | reflexivity |].
  apply extracts_end.
Qed.

Lemma NewSshServer_loads_exactly_witness :
  exists s,
    NewSshServer examples.line_ParseAuthorizedKey examples.line_ParsePrivateKey
      (Some "hostkey") (Some examples.authorized_keys_file) "2222"
    = Returned (s, examples.host_signer) /\
    exists perms,
      snd (keyAuth examples.tag_Fingerprint s examples.conn_meta examples.keyB)
      = inl perms.
Proof.
  destruct (NewSshServer_loads_exactly examples.tag_Fingerprint
              examples.line_ParseAuthorizedKey examples.line_ParsePrivateKey
              line_parser_consumes "hostkey" examples.authorized_keys_file
              "2222" examples.host_signer [examples.keyA; examples.keyB]
              example_file_extracts eq_refl)
    as (s & Hs & _ & _ & Hauth).
  exists s. split; [exact Hs|].
  apply Hauth. exists examples.keyB. split; [simpl; auto | reflexivity].
Defined.

Lemma NewSshServer_bad_key_is_fatal_witness :
  NewSshServer examples.line_ParseAuthorizedKey examples.line_ParsePrivateKey
    (Some "hostkey")
    (Some ("AAAA" +:+ String examples.nl (String examples.nl "BBBB"))) "2222"
  = FatalExit.
Proof.
  apply (NewSshServer_bad_key_is_fatal examples.line_ParseAuthorizedKey
           examples.line_ParsePrivateKey line_parser_consumes).
  eapply rejects_later; [discriminate | reflexivity |].
  apply rejects_here; [discriminate | reflexivity].
Defined.

(** *** Channels *)

Lemma handleChannel_one ch : exists ev, handleChannel ch = [ev].
Proof.
  unfold handleChannel.
  destruct (String.eqb _ "session"); [eauto|].
  destruct (String.eqb _ "direct-tcpip"); eauto.
Qed.

Lemma handleChannels_cons ch chans :
  handleChannels (ch :: chans) = handleChannel ch ++ handleChannels chans.
Proof. reflexivity. Qed.

(** X3.  [handleChannels] disposes of every channel exactly once and in the
    order of arrival: the i-th thing it does concerns the i-th channel, and
    it is the start of the session handler when the type is [session], the
    start of the direct handler when the type is [direct-tcpip], and
    otherwise a rejection with reason [UnknownChannelType] whose message
    names the type.  So a channel of another type never reaches a handler
    and a channel of the two types is never rejected. *)
Theorem handleChannels_dispatch (chans : list NewChannel) :
  length (handleChannels chans) = length chans /\
  forall i ch,
    chans !! i = Some ch ->
    handleChannels chans !! i
    = Some (if String.eqb (ChannelType ch) "session" then EvSession ch
            else if String.eqb (ChannelType ch) "direct-tcpip"
                 then EvDirect ch
                 else EvReject ch UnknownChannelType
                        ("unknown channel type: " +:+ ChannelType ch)).
Proof.
  induction chans as [|c chans [IHl IHi]]; [split; [reflexivity | intros i ch H; inversion H]|].
  rewrite handleChannels_cons. split.
  - destruct (handleChannel_one c) as [ev ->]. simpl. now rewrite IHl.
  - intros [|i] ch Hi; simpl in Hi.
    + injection Hi as ->. unfold handleChannel.
      destruct (String.eqb _ "session"); [reflexivity|].
      destruct (String.eqb _ "direct-tcpip"); reflexivity.
    + destruct (handleChannel_one c) as [ev ->]. simpl. now apply IHi.
Qed.

Lemma handleChannels_dispatch_witness :
  handleChannels [examples.chan_session; examples.chan_x11;
                  examples.chan_direct] !! 1%nat
  = Some (EvReject examples.chan_x11 UnknownChannelType
            "unknown channel type: x11").
Proof.
  exact (proj2 (handleChannels_dispatch
                  [examples.chan_session; examples.chan_x11;
                   examples.chan_direct]) 1%nat examples.chan_x11 eq_refl).
Defined.

(** *** The accept loop *)

Lemma Start_step_keeps_keys st i :
  authorizedKeysMap (srv (Start_step st i)) = authorizedKeysMap (srv st) /\
  tcpPort (srv (Start_step st i)) = tcpPort (srv st).
Proof.
  unfold Start_step. destruct (crashed st); [split; reflexivity|].
  destruct i; simpl; try (split; reflexivity).
  case_bool_decide; split; reflexivity.
Qed.

(** X4.  Serving never changes who is authorised nor the port: after any
    sequence of connections, handshakes, requests and closed streams the
    map of authorised keys and the port are those the server started
    with, and so is the verdict of [keyAuth] on every key. *)
Theorem Start_keeps_authorised_keys
        (FingerprintSHA256 : ssh.PublicKey -> string)
        (st : Running) (ins : list Input) :
  authorizedKeysMap (srv (Start_run st ins)) = authorizedKeysMap (srv st) /\
  tcpPort (srv (Start_run st ins)) = tcpPort (srv st) /\
  forall conn pubKey,
    keyAuth FingerprintSHA256 (srv (Start_run st ins)) conn pubKey
    = keyAuth FingerprintSHA256 (srv st) conn pubKey.
Proof.
  assert (H : authorizedKeysMap (srv (Start_run st ins))
              = authorizedKeysMap (srv st) /\
              tcpPort (srv (Start_run st ins)) = tcpPort (srv st)).
  { induction ins as [|i ins [IH1 IH2]] using rev_ind; [split; reflexivity|].
    rewrite sshd_props.Start_run_snoc.
    destruct (Start_step_keeps_keys (Start_run st ins) i) as [-> ->].
    split; assumption. }
  destruct H as [H1 H2]. repeat split; try assumption.
  intros conn pubKey. unfold keyAuth. now rewrite H1.
Qed.

(** X5.  [handleTcpIpForward] is never called with a nil connection: every
    forward the server has serviced since it began to listen was serviced
    with a connection whose handshake had completed before. *)
Theorem forward_never_against_nil
        (s0 : SshServer) (ins : list Input)
        (req : ssh.Request) (c : option ssh.ServerConn) :
  In (EvForward req c) (trace (Start_run (listening s0) ins)) ->
  exists sshConn, c = Some sshConn /\ In (InHandshake sshConn) ins.
Proof.
  induction ins as [|i ins IH] using rev_ind; [intros []|].
  rewrite sshd_props.Start_run_snoc.
  assert (Hold : In (EvForward req c) (trace (Start_run (listening s0) ins)) ->
                 exists sshConn,
                   c = Some sshConn /\ In (InHandshake sshConn) (ins ++ [i])).
  { intros H. destruct (IH H) as (x & -> & Hin). exists x.
    split; [reflexivity | apply in_or_app; now left]. }
  unfold Start_step.
  destruct (crashed (Start_run (listening s0) ins)) eqn:Hc; [exact Hold|].
  destruct i as [| |sc|peer r|peer]; simpl; try exact Hold.
  - intros H. apply in_app_or in H as [H|[H|[]]]; [now apply Hold | discriminate].
  - intros H. apply in_app_or in H as [H|[H|[]]]; [now apply Hold | discriminate].
  - case_bool_decide as Hr; [|exact Hold]. simpl.
    intros H. apply in_app_or in H as [H|H]; [now apply Hold|].
    destruct (sshd_props.Start_run_client s0 ins Hc) as [Hcl Hlive].
    specialize (Hlive peer Hr).
    unfold handleRequest in H.
    destruct (String.eqb _ _); destruct H as [H|[]]; [|discriminate].
    injection H as _ <-. rewrite Hcl.
    destruct (latest_peer ins) as [x|] eqn:E; [|contradiction].
    exists x. split; [reflexivity|]. apply in_or_app. left.
    clear -E. induction ins as [|j ins IH] using rev_ind; [discriminate|].
    rewrite sshd_props.latest_peer_snoc in E. apply in_or_app.
    destruct j; try (left; now apply IH). injection E as ->. right. now left.
Qed.

Lemma forward_never_against_nil_witness :
  exists sshConn,
    Some examples.peerB = Some sshConn /\
    In (InHandshake sshConn)
       [InHandshake examples.peerA; InHandshake examples.peerB;
        InRequest examples.peerA examples.req_forward].
Proof.
  apply (forward_never_against_nil examples.server1 _ examples.req_forward).
  simpl. auto.
Defined.

Lemma crashed_absorbs st ins :
  crashed st = true -> Start_run st ins = st.
Proof.
  intros Hc. induction ins as [|i ins IH] using rev_ind; [reflexivity|].
  rewrite sshd_props.Start_run_snoc, IH. unfold Start_step. now rewrite Hc.
Qed.

(** X6.  A failed [Accept] ends the server: whatever the network delivers
    afterwards does nothing, no request is serviced and no line is logged.
    A failed handshake, in contrast, costs one log line only: the server,
    the live routers and the rest of the trace are as before, and the
    loop goes on accepting. *)
Theorem accept_error_ends_handshake_error_does_not
        (st : Running) (before after : list Input) :
  Start_run st (before ++ InAcceptError :: after)
  = Start_run st (before ++ [InAcceptError]) /\
  (crashed (Start_run st before) = false ->
   crashed (Start_run st (before ++ [InAcceptError])) = true /\
   trace (Start_run st (before ++ [InAcceptError]))
   = trace (Start_run st before) /\
   Start_run st (before ++ [InHandshakeError])
   = {| srv := srv (Start_run st before);
        routers := routers (Start_run st before);
        crashed := false;
        trace := trace (Start_run st before) ++ [EvLogError] |}).
Proof.
  split.
  - change (InAcceptError :: after) with ([InAcceptError] ++ after).
    rewrite app_assoc. unfold Start_run at 1. rewrite fold_left_app.
    fold (Start_run st (before ++ [InAcceptError])).
    fold (Start_run (Start_run st (before ++ [InAcceptError])) after).
    apply crashed_absorbs.
    rewrite sshd_props.Start_run_snoc. unfold Start_step.
    destruct (crashed (Start_run st before)) eqn:E; [exact E | reflexivity].
  - intros Hc. rewrite !sshd_props.Start_run_snoc. unfold Start_step.
    rewrite Hc. simpl. repeat split.
Qed.

End sshd_more.

(** ** Endpoints: distinct endpoints render differently *)

Module tun_more.

Lemma uint_no_colon d :
  tun.no_char tun.colon (NilEmpty.string_of_uint d).
Proof.
  intros Hin. apply tun_props.uint_digits in Hin. discriminate.
Qed.

Lemma fmt_d_no_colon p : tun.no_char tun.colon (tun.fmt_d p).
Proof.
  assert (Hz : forall d, tun.no_char tun.colon (NilZero.string_of_uint d)).
  { intros d. unfold NilZero.string_of_uint.
    destruct d; try apply uint_no_colon.
    intros [H|[]]. discriminate. }
  unfold tun.fmt_d. destruct (Z.to_int p) as [d|d]; simpl; [apply Hz|].
  apply tun_props.no_char_cons. split; [discriminate | apply Hz].
Qed.

Lemma fmt_d_parses p :
  NilZero.int_of_string (tun.fmt_d p) = Some (Z.to_int p).
Proof.
  unfold tun.fmt_d. apply NilZero.isi.
  - destruct p as [|p|p]; simpl; try discriminate.
    intros [= E]. now destruct (DecimalPos.Unsigned.to_uint_nonnil p).
  - destruct p as [|p|p]; simpl; try discriminate.
    intros [= E]. now destruct (DecimalPos.Unsigned.to_uint_nonnil p).
Qed.

Lemma fmt_d_injective p q : tun.fmt_d p = tun.fmt_d q -> p = q.
Proof.
  intros H. apply DecimalZ.to_int_inj.
  pose proof (fmt_d_parses p) as Hp. rewrite H, fmt_d_parses in Hp.
  now injection Hp.
Qed.

(** A string is cut in one way only into a text, a colon and a text
    without colon. *)
Lemma last_colon_unique h1 : forall h2 d1 d2,
  tun.no_char tun.colon d1 -> tun.no_char tun.colon d2 ->
  h1 +:+ String tun.colon d1 = h2 +:+ String tun.colon d2 ->
  h1 = h2 /\ d1 = d2.
Proof.
  induction h1 as [|a h1 IH]; intros [|b h2] d1 d2 H1 H2 E.
  - injection E as ->. now split.
  - exfalso. change (String tun.colon d1 = String b (h2 +:+ String tun.colon d2)) in E.
    injection E as _ ->.
    apply tun_props.no_char_app in H1 as [_ H1].
    apply tun_props.no_char_cons in H1 as [H1 _]. now apply H1.
  - exfalso. change (String a (h1 +:+ String tun.colon d1) = String tun.colon d2) in E.
    injection E as _ <-.
    apply tun_props.no_char_app in H2 as [_ H2].
    apply tun_props.no_char_cons in H2 as [H2 _]. now apply H2.
  - change (String a (h1 +:+ String tun.colon d1)
            = String b (h2 +:+ String tun.colon d2)) in E.
    injection E as -> E. destruct (IH h2 d1 d2 H1 H2 E) as [-> ->].
    now split.
Qed.

(** X7.  [String()] is injective: two endpoints with the same rendering
    have the same host and the same port, whatever the host (colons
    included) and whatever the port (negative ports included). *)
Theorem String_injective (e1 e2 : tun.Endpoint) :
  tun.String_ e1 = tun.String_ e2 -> e1 = e2.
Proof.
  destruct e1 as [h1 p1], e2 as [h2 p2]. unfold tun.String_. simpl.
  intros E.
  destruct (last_colon_unique h1 h2 (tun.fmt_d p1) (tun.fmt_d p2)
              (fmt_d_no_colon p1) (fmt_d_no_colon p2) E) as [-> Hp].
  now rewrite (fmt_d_injective p1 p2 Hp).
Qed.

Lemma String_injective_witness :
  tun.String_ examples.endpoint1 <> tun.String_ examples.endpoint2.
Proof.
  intros E. apply String_injective in E. discriminate.
Defined.

End tun_more.

(** ** The connection manager: latch, status, handle, stopping *)

Module sshc_more.

Import sshc.

Section Supervision.

Variable HomeDir : string.

Lemma reachable_invariant conf u h x e script :
  loop_invariant (exec HomeDir (boot (NewSshConnection conf u h x e)) script).
Proof.
  apply sshc_props.exec_invariant, sshc_props.boot_invariant.
Qed.

(** X8.  The counter of the readiness latch is 0 or 1 at every time.
    [ReadyWait] returns exactly while the [Start] goroutine is after its
    [Done()] and before its [Add(1)]; and whenever [ReadyWait] returns, the
    client handle is not nil, so a caller that reads [Client] right after
    it never reads nil. *)
Theorem ReadyWait_returns_between_Done_and_Add
        conf u h x e (script : list Action) :
  let s := exec HomeDir (boot (NewSshConnection conf u h x e)) script in
  (connected (conn s) = 0 \/ connected (conn s) = 1) /\
  ReadyWait_returns (conn s) = between_Done_and_Add (pc s) /\
  (ReadyWait_returns (conn s) = true -> Client (conn s) <> None).
Proof.
  intros s. pose proof (reachable_invariant conf u h x e script) as Hinv.
  fold s in Hinv. unfold loop_invariant, ReadyWait_returns in *.
  destruct (pc s); simpl;
    repeat match goal with H : _ /\ _ |- _ => destruct H end;
    try contradiction;
    match goal with H : connected _ = _ |- _ => rewrite H end;
    simpl; repeat split; auto; discriminate.
Qed.

(** Every step writes one of the three status constants, or none. *)
Lemma step_status s a :
  connectionStatus (conn (step HomeDir s a)) = connectionStatus (conn s) \/
  In (connectionStatus (conn (step HomeDir s a)))
     [STATUS_CONNECTING; STATUS_CONNECTED; STATUS_CLOSED].
Proof.
  destruct s as [c p t]. destruct a as [|r| | |]; simpl.
  - destruct p; simpl; auto.
  - unfold Start_step, connect, resetConn_close; simpl.
    destruct p; simpl; auto.
    + destruct (isStopped c); simpl; auto.
    + destruct r; simpl; auto.
    + destruct (connected c - 1 <? 0); simpl; auto.
    + destruct (Client c); [destruct r|]; simpl; auto.
    + destruct (Client c); simpl; auto.
  - auto.
  - unfold resetConn_close. destruct (Client c); simpl; auto.
  - simpl; auto.
Qed.

(** X9.  The status is always one of [Connecting...], [Connected] and
    [Closed]; and it is [Connected] only while the [Start] goroutine is
    inside [keepAlive] or inside the [resetConn] that follows it. *)
Theorem status_is_one_of_three conf u h x e (script : list Action) :
  let s := exec HomeDir (boot (NewSshConnection conf u h x e)) script in
  In (GetConnectionStatus (conn s))
     [STATUS_CONNECTING; STATUS_CONNECTED; STATUS_CLOSED] /\
  (GetConnectionStatus (conn s) = STATUS_CONNECTED -> in_session (pc s) = true).
Proof.
  intros s. split.
  - subst s. unfold GetConnectionStatus.
    induction script as [|a script IH] using rev_ind; [simpl; auto|].
    unfold exec in *. rewrite fold_left_app. simpl.
    destruct (step_status
                (fold_left (step HomeDir) script
                           (boot (NewSshConnection conf u h x e))) a)
      as [-> | H]; assumption.
  - pose proof (reachable_invariant conf u h x e script) as Hinv.
    fold s in Hinv. unfold loop_invariant, GetConnectionStatus in *.
    destruct (pc s); simpl; try reflexivity;
      repeat match goal with H : _ /\ _ |- _ => destruct H end;
      try contradiction; intros; contradiction.
Qed.

Lemma step_keeps_handle s a :
  Client (conn s) <> None -> Client (conn (step HomeDir s a)) <> None.
Proof.
  destruct s as [c p t]. simpl. intros Hc.
  destruct (Client c) as [cl|] eqn:E; [clear Hc | congruence].
  destruct a as [|r| | |]; simpl.
  - destruct p; simpl; rewrite ?E; discriminate.
  - unfold Start_step, connect, resetConn_close; simpl.
    destruct p; simpl; rewrite ?E; try discriminate.
    + destruct (isStopped c); simpl; rewrite E; discriminate.
    + destruct r; simpl; rewrite ?E; discriminate.
    + destruct (connected c - 1 <? 0); simpl; rewrite E; discriminate.
    + destruct r; simpl; rewrite E; discriminate.
  - rewrite E; discriminate.
  - unfold resetConn_close. rewrite E. simpl. discriminate.
  - rewrite E; discriminate.
Qed.

(** X10.  Once the client handle is not nil it never is nil again, whatever
    [Start] and [Stop] do later: a failed keep-alive, a [Stop], a failed
    dial all leave a handle (to a closed client) in place. *)
Theorem handle_never_reset (s : Sys) (script : list Action) :
  Client (conn s) <> None ->
  Client (conn (exec HomeDir s script)) <> None.
Proof.
  revert s. induction script as [|a script IH]; intros s Hs; [exact Hs|].
  simpl. apply IH. now apply step_keeps_handle.
Qed.

Lemma step_same_config s a : same_config (conn (step HomeDir s a)) (conn s).
Proof.
  destruct s as [c p t]. unfold same_config.
  destruct a as [|r| | |]; simpl.
  - destruct p; simpl; repeat split.
  - unfold Start_step, connect, resetConn_close; simpl.
    destruct p; simpl; try (repeat split; fail).
    + destruct (isStopped c); simpl; repeat split.
    + destruct r; simpl; repeat split.
    + destruct (connected c - 1 <? 0); simpl; repeat split.
    + destruct (Client c); [destruct r|]; simpl; repeat split.
    + destruct (Client c); simpl; repeat split.
  - repeat split.
  - unfold resetConn_close. destruct (Client c); simpl; repeat split.
  - repeat split.
Qed.

(** X11.  Running never changes the configuration of a manager: user name,
    identity, password, path of the store, server endpoint, the insecure
    and quiet flags, the jump hosts and both intervals stay what
    [NewSshConnection] made them; with the defaults, both intervals stay
    five seconds. *)
Theorem configuration_is_never_written conf u h x e (script : list Action) :
  let c0 := NewSshConnection conf u h x e in
  let s := exec HomeDir (boot c0) script in
  same_config (conn s) c0 /\
  reconnectionInterval (conn s) = 5000000000 /\
  keepAliveInterval (conn s) = 5000000000.
Proof.
  intros c0 s.
  assert (H : forall s0 sc, same_config (conn (exec HomeDir s0 sc)) (conn s0)).
  { intros s0 sc. revert s0. induction sc as [|a sc IH]; intros s0.
    - unfold same_config. repeat split.
    - simpl. specialize (IH (step HomeDir s0 a)).
      pose proof (step_same_config s0 a) as Hs.
      unfold same_config in *.
      repeat match goal with H : _ /\ _ |- _ => destruct H end.
      repeat split; congruence. }
  pose proof (H (boot c0) script) as Hc. fold s in Hc. simpl in Hc.
  split; [exact Hc|].
  unfold same_config in Hc.
  repeat match goal with H : _ /\ _ |- _ => destruct H end.
  split; [transitivity (reconnectionInterval c0)
         | transitivity (keepAliveInterval c0)]; try assumption; reflexivity.
Qed.

(** X12.  [Stop] twice leaves the manager as [Stop] once does: stopped,
    status [Closed], latch untouched.  The second call is not without
    effect on the network, though: it calls [Close()] once more on the
    client that is closed already. *)
Theorem Stop_twice (c : SshConnection) :
  fst (Stop (fst (Stop c))) = fst (Stop c) /\
  isStopped (fst (Stop c)) = true /\
  connectionStatus (fst (Stop c)) = STATUS_CLOSED /\
  connected (fst (Stop c)) = connected c /\
  forall cl,
    Client c = Some cl ->
    snd (Stop (fst (Stop c)))
    = [EvClose {| ssh.clientId := ssh.clientId cl; ssh.closed := true |};
       EvStatus STATUS_CLOSED].
Proof.
  unfold Stop, resetConn, resetConn_close, resetConn_status.
  destruct c as [? ? ? ? ? ? ? ? ? ? [cl|] ? ? ?]; simpl;
    repeat split; intros; try discriminate.
  match goal with H : Some _ = Some _ |- _ => injection H as <- end.
  reflexivity.
Qed.

Lemma run_idle fuel ds ss c t :
  Start_run HomeDir fuel ds ss {| conn := c; pc := Idle; trace := t |}
  = ({| conn := c; pc := Idle; trace := t |}, ds, ss).
Proof. destruct fuel; reflexivity. Qed.

(** One round of [Start_run] at a position that asks nothing of the
    network, and at the keep-alive request. *)
Lemma run_plain fuel ds ss c p t :
  match p with Idle | Crashed | AtConnect | AtSend => False | _ => True end ->
  Start_run HomeDir (S fuel) ds ss {| conn := c; pc := p; trace := t |}
  = Start_run HomeDir fuel ds ss
      (Start_step HomeDir (Ok 0) {| conn := c; pc := p; trace := t |}).
Proof. destruct p; simpl; intros H; try reflexivity; destruct H. Qed.

Lemma run_send fuel ds r ss c t :
  Start_run HomeDir (S fuel) ds (r :: ss)
    {| conn := c; pc := AtSend; trace := t |}
  = Start_run HomeDir fuel ds ss
      (Start_step HomeDir r {| conn := c; pc := AtSend; trace := t |}).
Proof. reflexivity. Qed.

Lemma step_send_err c cl t e :
  Client c = Some cl ->
  Start_step HomeDir (Err e) {| conn := c; pc := AtSend; trace := t |}
  = {| conn := c; pc := AtResetClose;
       trace := t ++ [EvSendRequest "keepalive@rospo" true;
                      EvLog ("error while sending keep alive " +:+ e)] |}.
Proof. intros H. unfold Start_step, goto. simpl. now rewrite H. Qed.

Lemma step_send_ok c cl t id :
  Client c = Some cl ->
  Start_step HomeDir (Ok id) {| conn := c; pc := AtSend; trace := t |}
  = {| conn := c; pc := AtKeepAliveSleep;
       trace := t ++ [EvSendRequest "keepalive@rospo" true] |}.
Proof. intros H. unfold Start_step, goto. simpl. now rewrite H. Qed.

Lemma step_reset_close c cl t r :
  Client c = Some cl ->
  Start_step HomeDir r {| conn := c; pc := AtResetClose; trace := t |}
  = {| conn := with_Client (Some {| ssh.clientId := ssh.clientId cl;
                                    ssh.closed := true |}) c;
       pc := AtResetStatus; trace := t ++ [EvClose cl] |}.
Proof.
  intros H. unfold Start_step, goto, resetConn_close. simpl. now rewrite H.
Qed.

Lemma step_check_stopped c t r :
  isStopped c = true ->
  Start_step HomeDir r {| conn := c; pc := AtCheck; trace := t |}
  = {| conn := c; pc := Idle; trace := t |}.
Proof.
  intros H. unfold Start_step, goto. simpl. rewrite H. simpl.
  now rewrite app_nil_r.
Qed.

(** X13.  [Stop] while the manager is connected.  Once [Stop] has set the
    flag, the next keep-alive request that fails ends the loop: the client
    is closed (once more), the status becomes [Closed], the latch is armed,
    [Start] returns, and no dial is made although the network would
    answer one.  Until a request fails the loop goes on sending: an answered
    request is followed by the sleep and the next request, the flag being
    read at the head of the outer loop only. *)
Theorem Stop_in_session_ends_after_failed_keepalive
        (s : Sys) (cl : ssh.Client) (e : string) (fuel : nat)
        (dials sends : list Reply) :
  pc s = AtSend -> isStopped (conn s) = true ->
  Client (conn s) = Some cl -> connected (conn s) = 0 ->
  Start_run HomeDir (5 + fuel) dials (Err e :: sends) s
  = ({| conn := with_connected 1
                  (with_connectionStatus STATUS_CLOSED
                     (with_Client
                        (Some {| ssh.clientId := ssh.clientId cl;
                                 ssh.closed := true |})
                        (conn s)));
        pc := Idle;
        trace := trace s ++
                 [EvSendRequest "keepalive@rospo" true;
                  EvLog ("error while sending keep alive " +:+ e);
                  EvClose cl; EvStatus STATUS_CLOSED; EvAdd 1] |},
     dials, sends)
  /\
  Start_run HomeDir 2 dials (Ok 0%nat :: sends) s
  = ({| conn := conn s; pc := AtSend;
        trace := trace s ++
                 [EvSendRequest "keepalive@rospo" true;
                  EvSleep (keepAliveInterval (conn s))] |},
     dials, sends).
Proof.
  destruct s as [c p t]; cbn [pc conn trace]. intros -> Hs Hcl Hn. split.
  - change (5 + fuel)%nat with (S (S (S (S (S fuel))))).
    rewrite run_send, (step_send_err c cl) by assumption.
    rewrite run_plain, (step_reset_close _ cl) by (exact I || assumption).
    rewrite run_plain by exact I.
    unfold Start_step at 1, goto, resetConn_status; cbn [pc conn trace].
    rewrite run_plain by exact I.
    unfold Start_step at 1, goto; cbn [pc conn trace].
    rewrite run_plain by exact I.
    rewrite step_check_stopped by exact Hs. rewrite run_idle.
    f_equal. f_equal. apply sshc_props.Sys_eq.
    + destruct c; simpl in *. subst. reflexivity.
    + rewrite <- ?app_assoc. reflexivity.
  - rewrite run_send, (step_send_ok c cl) by assumption.
    rewrite run_plain by exact I.
    unfold Start_step, goto; cbn [pc conn trace Start_run].
    f_equal. f_equal. apply sshc_props.Sys_eq; [reflexivity|].
    rewrite <- ?app_assoc. reflexivity.
Qed.

(** X14.  [Stop] while the manager retries.  With the flag set, the loop
    asleep after a failed dial wakes up, reads the flag and returns
    without dialing again, although the network would answer; at the head
    of the loop it returns at once.  Status, latch and handle are what
    they were. *)
Theorem Stop_in_retry_ends_without_dial
        (s : Sys) (fuel : nat) (dials sends : list Reply) :
  isStopped (conn s) = true ->
  (pc s = AtSleep ->
   Start_run HomeDir (2 + fuel) dials sends s
   = ({| conn := conn s; pc := Idle;
         trace := trace s ++ [EvSleep (reconnectionInterval (conn s))] |},
      dials, sends)) /\
  (pc s = AtCheck ->
   Start_run HomeDir (1 + fuel) dials sends s
   = ({| conn := conn s; pc := Idle; trace := trace s |}, dials, sends)).
Proof.
  destruct s as [c p t]; cbn [pc conn trace]. intros Hs. split; intros ->.
  - change (2 + fuel)%nat with (S (S fuel)).
    rewrite run_plain by exact I.
    unfold Start_step at 1, goto; cbn [pc conn trace].
    rewrite run_plain by exact I.
    rewrite step_check_stopped by exact Hs. now rewrite run_idle.
  - change (1 + fuel)%nat with (S fuel).
    rewrite run_plain by exact I.
    rewrite step_check_stopped by exact Hs. now rewrite run_idle.
Qed.

End Supervision.

Lemma handle_never_reset_witness :
  Client (conn (exec examples.home
                  (exec examples.home (boot examples.manager)
                        examples.one_session)
                  [StopStore; StopClose; StopStatus])) <> None.
Proof.
  apply (handle_never_reset examples.home
           (exec examples.home (boot examples.manager) examples.one_session)
           [StopStore; StopClose; StopStatus]).
  vm_compute. discriminate.
Defined.

Lemma Stop_in_session_ends_after_failed_keepalive_witness :
  pc (fst (fst (Start_run examples.home 9 [Ok 8] [Err "EOF"]
                  examples.stopped_in_session))) = Idle /\
  snd (fst (Start_run examples.home 9 [Ok 8] [Err "EOF"]
              examples.stopped_in_session)) = [Ok 8].
Proof.
  destruct (Stop_in_session_ends_after_failed_keepalive examples.home
              examples.stopped_in_session
              {| ssh.clientId := 7; ssh.closed := true |} "EOF" 4 [Ok 8] []
              eq_refl eq_refl eq_refl eq_refl) as [H _].
  split.
  - exact (f_equal (fun r => pc (fst (fst r))) H).
  - exact (f_equal (fun r => snd (fst r)) H).
Defined.

Lemma Stop_in_retry_ends_without_dial_witness :
  pc (fst (fst (Start_run examples.home 5 [Ok 8] []
                  examples.stopped_in_retry))) = Idle /\
  snd (fst (Start_run examples.home 5 [Ok 8] []
              examples.stopped_in_retry)) = [Ok 8].
Proof.
  destruct (Stop_in_retry_ends_without_dial examples.home
              examples.stopped_in_retry 3 [Ok 8] [] eq_refl) as [H _].
  specialize (H eq_refl). split.
  - exact (f_equal (fun r => pc (fst (fst r))) H).
  - exact (f_equal (fun r => snd (fst r)) H).
Defined.

End sshc_more.

(** ** The host-key verifier: what it accepts, refuses and writes *)

Module sshc_store.

Import sshc knownhosts.

Lemma knownKeys_app db1 : forall db2 host seen,
  knownKeys (db1 ++ db2) host seen = knownKeys db2 host (knownKeys db1 host seen).
Proof.
  induction db1 as [|l db1 IH]; intros db2 host seen; simpl; [reflexivity|].
  destruct l as [h k| |]; try apply IH.
  destruct (_ && _); apply IH.
Qed.

Lemma knownKeys_none db host :
  (forall k, ~ In (Known host k) db) -> knownKeys db host [] = [].
Proof.
  intros Hno. destruct (knownKeys db host []) as [|k ks] eqn:E; [reflexivity|].
  exfalso. destruct (sshc_props.knownKeys_recorded db host [] k) as [[]|Hin].
  - rewrite E. now left.
  - exact (Hno k Hin).
Qed.

(** A recorded key has a key of its type among the keys collected. *)
Lemma knownKeys_has_type db host k0 : forall seen,
  In (Known host k0) db ->
  exists k, In k (knownKeys db host seen) /\
            String.eqb (ssh.KeyType k) (ssh.KeyType k0) = true.
Proof.
  induction db as [|l db IH]; intros seen Hin; [destruct Hin|].
  destruct Hin as [->|Hin]; simpl.
  - rewrite String.eqb_refl. simpl.
    destruct (existsb _ seen) eqn:E; simpl.
    + apply existsb_exists in E as (k & Hk & Ht). exists k.
      split; [now apply sshc_props.knownKeys_seen | exact Ht].
    + exists k0. split; [|apply String.eqb_refl].
      apply sshc_props.knownKeys_seen, in_or_app. right. now left.
  - destruct l as [h k'| |]; try (now apply IH).
    destruct (_ && _); now apply IH.
Qed.

(** The lookup accepts a key that is recorded for the host when no other
    key of its type is. *)
Lemma check_match db host key :
  existsb (is_revoked key) db = false ->
  In (Known host key) db ->
  (forall k, In (Known host k) db -> ssh.KeyType k = ssh.KeyType key ->
             ssh.Marshal k = ssh.Marshal key) ->
  check db host key = None.
Proof.
  intros Hrev Hin Hsame. unfold check. rewrite Hrev.
  destruct (knownKeys_has_type db host key [] Hin) as (k1 & Hk1 & Ht1).
  destruct (knownKeys db host []) as [|k ks] eqn:E; [destruct Hk1|].
  destruct (find _ (k :: ks)) as [k2|] eqn:F.
  - apply find_some in F as [F Ht2]. rewrite <- E in F.
    apply sshc_props.knownKeys_recorded in F as [[]|F].
    apply String.eqb_eq in Ht2.
    now rewrite (Hsame k2 F Ht2), String.eqb_refl.
  - exfalso. apply (find_none _ _ F) in Hk1. simpl in Hk1. congruence.
Qed.

Section Store.

Variable FingerprintSHA256 : ssh.PublicKey -> string.
Variable SerializePublicKey : ssh.PublicKey -> string.
Variable creatable : string -> bool.

(** With a store that parses, the callback is its second half run on the
    lines of the store. *)
Lemma callback_on_parsed_store s fail host key w file :
  insecure s = false ->
  fs w !! knownHosts s = Some file ->
  forallb well_formed (lines file) = true ->
  verifyHostCallback FingerprintSHA256 SerializePublicKey creatable
    s fail host key w
  = judge FingerprintSHA256 SerializePublicKey s fail host key (lines file)
      (say ("using known_hosts file at " +:+ knownHosts s) w).
Proof.
  intros Hsec Hf Hwf. unfold verifyHostCallback.
  rewrite Hsec. simpl fs. now rewrite (sshc_props.New_lines _ _ _ Hf Hwf).
Qed.

(** X15.  Strict verification of a key that the store records for the host
    (no other key of that type being recorded for it, the key not being
    revoked): the callback accepts, for a dial and for [GrabPubKey] alike,
    logs the path of the store and nothing else, and writes nothing. *)
Theorem recorded_key_is_accepted
        (s : SshConnection) (fail : bool) (host : string)
        (key : ssh.PublicKey) (w : World) (file : File) :
  insecure s = false ->
  fs w !! knownHosts s = Some file ->
  forallb well_formed (lines file) = true ->
  existsb (is_revoked key) (lines file) = false ->
  In (Known host key) (lines file) ->
  (forall k, In (Known host k) (lines file) ->
             ssh.KeyType k = ssh.KeyType key ->
             ssh.Marshal k = ssh.Marshal key) ->
  verifyHostCallback FingerprintSHA256 SerializePublicKey creatable
    s fail host key w
  = (say ("using known_hosts file at " +:+ knownHosts s) w, Returned None).
Proof.
  intros Hsec Hf Hwf Hrev Hin Hsame. unfold verifyHostCallback.
  rewrite Hsec. simpl fs. rewrite (sshc_props.New_lines _ _ _ Hf Hwf).
  unfold judge. now rewrite (check_match _ host key Hrev Hin Hsame).
Qed.

(** X16.  Strict verification of a key that the store lists as revoked: the
    callback returns the revocation error and writes nothing, whether or
    not the host is recorded, and for [GrabPubKey] too: a revoked key is
    never added to the store. *)
Theorem revoked_key_is_refused
        (s : SshConnection) (fail : bool) (host : string)
        (key : ssh.PublicKey) (w : World) (file : File) :
  insecure s = false ->
  fs w !! knownHosts s = Some file ->
  forallb well_formed (lines file) = true ->
  existsb (is_revoked key) (lines file) = true ->
  verifyHostCallback FingerprintSHA256 SerializePublicKey creatable
    s fail host key w
  = (say ("using known_hosts file at " +:+ knownHosts s) w,
     Returned (Some (RevokedError key))).
Proof.
  intros Hsec Hf Hwf Hrev. unfold verifyHostCallback.
  rewrite Hsec. simpl fs. rewrite (sshc_props.New_lines _ _ _ Hf Hwf).
  unfold judge, check. now rewrite Hrev.
Qed.

(** X17.  Strict verification with a store whose file exists and does not
    parse: the process ends with a fatal log line, for a dial and for
    [GrabPubKey] alike, and the file is left as it is: opening it with
    [O_CREATE] neither truncates nor repairs it. *)
Theorem unparsable_store_is_fatal
        (s : SshConnection) (fail : bool) (host : string)
        (key : ssh.PublicKey) (w : World) (file : File) :
  insecure s = false ->
  fs w !! knownHosts s = Some file ->
  forallb well_formed (lines file) = false ->
  exists w',
    verifyHostCallback FingerprintSHA256 SerializePublicKey creatable
      s fail host key w = (w', FatalExit) /\
    fs w' = fs w.
Proof.
  intros Hsec Hf Hwf. unfold verifyHostCallback. rewrite Hsec. simpl fs.
  unfold New at 1. rewrite Hf, Hwf.
  unfold OpenFile_CREATE. simpl fs. rewrite Hf.
  unfold New. simpl fs. rewrite Hf, Hwf.
  eexists. split; reflexivity.
Qed.

(** What the second half of the callback does to the files: nothing, or
    for [GrabPubKey] one line more in the store. *)
Lemma judge_files s fail host key db w0 w1 r :
  judge FingerprintSHA256 SerializePublicKey s fail host key db w0 = (w1, r) ->
  fs w1 = fs w0 \/
  (fail = false /\
   exists file,
     fs w0 !! knownHosts s = Some file /\
     fs w1 = <[knownHosts s :=
                 {| perm := perm file;
                    lines := lines file ++ [Known host key] |}]> (fs w0)).
Proof.
  unfold judge.
  destruct (check db host key) as [[want|rk|msg]|];
    try (intros [= <- _]; now left).
  destruct want as [|k ks]; simpl; [|intros [= <- _]; now left].
  destruct fail; [intros [= <- _]; now left|].
  unfold AddHostKeyToKnownHosts. simpl fs.
  destruct (fs w0 !! knownHosts s) as [file|] eqn:E; intros [= <- _]; simpl.
  - right. split; [reflexivity|]. exists file. now split.
  - now left.
Qed.

(** X18.  The callback only ever appends to the store.  Whatever the mode,
    the host, the key and the outcome: a file that existed keeps its
    permission bits and its lines, with at most the one line for the
    offered host and key added at the end, and that only in the store and
    only for [GrabPubKey]; no other path comes into being; and where there
    was no store, afterwards there is none, or one with mode 0600 that is
    empty or, for [GrabPubKey] only, holds that one line. *)
Theorem store_is_only_appended_to
        (s : SshConnection) (fail : bool) (host : string)
        (key : ssh.PublicKey) (w w' : World)
        (r : outcome (option error)) :
  verifyHostCallback FingerprintSHA256 SerializePublicKey creatable
    s fail host key w = (w', r) ->
  (forall p f,
     fs w !! p = Some f ->
     exists f',
       fs w' !! p = Some f' /\ perm f' = perm f /\
       (lines f' = lines f \/
        (lines f' = lines f ++ [Known host key] /\
         p = knownHosts s /\ fail = false))) /\
  (forall p, fs w !! p = None -> p <> knownHosts s -> fs w' !! p = None) /\
  (fs w !! knownHosts s = None ->
   fs w' !! knownHosts s = None \/
   exists f',
     fs w' !! knownHosts s = Some f' /\ perm f' = mode_0600 /\
     (lines f' = [] \/ (lines f' = [Known host key] /\ fail = false))).
Proof.
  intros Hrun.
  assert (Hshape : exists f0,
    (f0 = fs w \/
     (fs w !! knownHosts s = None /\
      f0 = <[knownHosts s := {| perm := mode_0600; lines := [] |}]> (fs w)))
    /\
    (fs w' = f0 \/
     (fail = false /\
      exists file,
        f0 !! knownHosts s = Some file /\
        fs w' = <[knownHosts s :=
                    {| perm := perm file;
                       lines := lines file ++ [Known host key] |}]> f0))).
  { revert Hrun. unfold verifyHostCallback.
    destruct (insecure s).
    { intros [= <- _]. exists (fs w). split; now left. }
    simpl fs. destruct (New (fs w) (knownHosts s)) as [db|] eqn:EN.
    { intros H. apply judge_files in H. exists (fs w). split; [now left|].
      exact H. }
    unfold OpenFile_CREATE. simpl fs.
    destruct (fs w !! knownHosts s) as [file|] eqn:EF.
    { rewrite EN. intros [= <- _]. exists (fs w). split; now left. }
    destruct (creatable (knownHosts s)).
    2:{ intros [= <- _]. exists (fs w). split; now left. }
    simpl fs. unfold New at 1. rewrite lookup_insert_eq. simpl.
    intros H. apply judge_files in H. eexists.
    split; [right; split; reflexivity|]. exact H. }
  destruct Hshape as (f0 & H0 & H1).
  repeat split.
  - intros p f Hp.
    assert (H0p : f0 !! p = Some f).
    { destruct H0 as [->|[Hnone ->]]; [exact Hp|].
      rewrite lookup_insert_ne; [exact Hp|]. congruence. }
    destruct H1 as [->|(-> & file & Hfile & ->)].
    + exists f. repeat split; [exact H0p | now left].
    + destruct (decide (knownHosts s = p)) as [<-|Hne].
      * rewrite lookup_insert_eq. rewrite Hfile in H0p. injection H0p as ->.
        eexists. split; [reflexivity|]. split; [reflexivity|].
        right. repeat split.
      * rewrite lookup_insert_ne by assumption.
        exists f. repeat split; [exact H0p | now left].
  - intros p Hp Hne.
    assert (H0p : f0 !! p = None).
    { destruct H0 as [->|[_ ->]]; [exact Hp|].
      rewrite lookup_insert_ne; [exact Hp|]. congruence. }
    destruct H1 as [->|(_ & file & _ & ->)]; [exact H0p|].
    rewrite lookup_insert_ne; [exact H0p|]. congruence.
  - intros Hp.
    destruct H0 as [->|[_ ->]].
    + destruct H1 as [->|(_ & file & Hfile & _)]; [now left|]. congruence.
    + right. destruct H1 as [->|(-> & file & Hfile & ->)].
      * rewrite lookup_insert_eq. eexists. split; [reflexivity|].
        split; [reflexivity | now left].
      * rewrite lookup_insert_eq in Hfile. injection Hfile as <-.
        rewrite lookup_insert_eq. eexists. split; [reflexivity|].
        split; [reflexivity|]. right. now split.
Qed.

End Store.

(** The lookup in a store to which a line for an unrecorded host was
    added. *)
Lemma check_after_append db host key key' :
  existsb (is_revoked key') db = false ->
  (forall k, ~ In (Known host k) db) ->
  check (db ++ [Known host key]) host key'
  = if String.eqb (ssh.KeyType key) (ssh.KeyType key') &&
       String.eqb (ssh.Marshal key) (ssh.Marshal key')
    then None else Some (KeyError [key]).
Proof.
  intros Hrev Hno. unfold check.
  rewrite existsb_app, Hrev. simpl.
  rewrite knownKeys_app, (knownKeys_none db host Hno). simpl.
  rewrite String.eqb_refl. simpl.
  destruct (String.eqb (ssh.KeyType key) (ssh.KeyType key')); simpl;
    [|reflexivity].
  now destruct (String.eqb (ssh.Marshal key) (ssh.Marshal key')).
Qed.

Section Trust.

Variable FingerprintSHA256 : ssh.PublicKey -> string.
Variable SerializePublicKey : ssh.PublicKey -> string.
Variable creatable : string -> bool.
Variable Endpoint_String : tun.Endpoint -> string.

(** X19.  Trust on first use, through [GrabPubKey].  Let the store parse
    and hold no line for the server (named as the dial names it: the
    rendering of the server endpoint), and let the server offer a key that
    is not revoked.  [GrabPubKey] returns, the store has one line more, and
    afterwards: a dial to the server offering the same key is accepted; a
    dial offering a key with another wire form (not revoked) gets a key
    error whose [Want] is the grabbed key; a second [GrabPubKey] with the
    same key adds no second line; and none of the three writes to the
    store. *)
Theorem grabbed_key_is_trusted_afterwards
        (s : SshConnection) (key : ssh.PublicKey) (w : World) (file : File) :
  let host := Endpoint_String (serverEndpoint s) in
  insecure s = false ->
  fs w !! knownHosts s = Some file ->
  forallb well_formed (lines file) = true ->
  existsb (is_revoked key) (lines file) = false ->
  (forall k, ~ In (Known host k) (lines file)) ->
  exists w1,
    GrabPubKey FingerprintSHA256 SerializePublicKey creatable Endpoint_String
      s (Some key) w = (w1, Returned tt) /\
    fs w1 = <[knownHosts s :=
                {| perm := perm file;
                   lines := lines file ++ [Known host key] |}]> (fs w) /\
    (exists w2,
       verifyHostCallback FingerprintSHA256 SerializePublicKey creatable
         s callback_of_connect host key w1 = (w2, Returned None) /\
       fs w2 = fs w1) /\
    (forall key',
       ssh.Marshal key' <> ssh.Marshal key ->
       existsb (is_revoked key') (lines file) = false ->
       exists w3,
         verifyHostCallback FingerprintSHA256 SerializePublicKey creatable
           s callback_of_connect host key' w1
         = (w3, Returned (Some (KeyError [key]))) /\
         fs w3 = fs w1) /\
    (exists w4,
       GrabPubKey FingerprintSHA256 SerializePublicKey creatable
         Endpoint_String s (Some key) w1 = (w4, Returned tt) /\
       fs w4 = fs w1).
Proof.
  intros host Hsec Hf Hwf Hrev Hno.
  assert (Hgrab :
    verifyHostCallback FingerprintSHA256 SerializePublicKey creatable
      s callback_of_GrabPubKey host key w
    = (with_fs (<[knownHosts s :=
                    {| perm := perm file;
                       lines := lines file ++ [Known host key] |}]> (fs w))
         (say (warning SerializePublicKey host key)
              (say ("using known_hosts file at " +:+ knownHosts s) w)),
       Returned None)).
  { rewrite (callback_on_parsed_store _ _ _ _ _ _ _ _ file Hsec Hf Hwf).
    unfold judge.
    rewrite (sshc_props.check_unknown _ host key Hrev Hno). simpl.
    unfold AddHostKeyToKnownHosts. simpl fs. now rewrite Hf. }
  set (file1 := {| perm := perm file;
                   lines := lines file ++ [Known host key] |}) in *.
  set (w1 := with_fs (<[knownHosts s := file1]> (fs w))
               (say (warning SerializePublicKey host key)
                    (say ("using known_hosts file at " +:+ knownHosts s) w)))
    in *.
  assert (Hf1 : fs w1 !! knownHosts s = Some file1)
    by (simpl; apply lookup_insert_eq).
  assert (Hwf1 : forallb well_formed (lines file1) = true)
    by (simpl; rewrite forallb_app, Hwf; reflexivity).
  assert (Hchk : forall key',
            existsb (is_revoked key') (lines file) = false ->
            check (lines file1) host key'
            = if String.eqb (ssh.KeyType key) (ssh.KeyType key') &&
                 String.eqb (ssh.Marshal key) (ssh.Marshal key')
              then None else Some (KeyError [key]))
    by (intros key' Hr; apply check_after_append; assumption).
  assert (Hsame : forall fail,
    verifyHostCallback FingerprintSHA256 SerializePublicKey creatable
      s fail host key w1
    = (say ("using known_hosts file at " +:+ knownHosts s) w1,
       Returned None)).
  { intros fail.
    rewrite (callback_on_parsed_store _ _ _ _ _ _ _ _ file1 Hsec Hf1 Hwf1).
    unfold judge. rewrite (Hchk key Hrev), !String.eqb_refl. reflexivity. }
  exists w1. split.
  { unfold GrabPubKey. fold host. now rewrite Hgrab. }
  split; [reflexivity|]. split; [|split].
  - eexists. split; [apply Hsame | reflexivity].
  - intros key' Hne Hrev'.
    rewrite (callback_on_parsed_store _ _ _ _ _ _ _ _ file1 Hsec Hf1 Hwf1).
    unfold judge. rewrite (Hchk key' Hrev').
    destruct (String.eqb_spec (ssh.Marshal key) (ssh.Marshal key'))
      as [E|_]; [now destruct Hne|].
    rewrite andb_false_r. simpl. eexists. split; reflexivity.
  - unfold GrabPubKey. fold host. rewrite Hsame.
    eexists. split; reflexivity.
Qed.

End Trust.

Lemma recorded_key_is_accepted_witness :
  snd (verifyHostCallback examples.tag_Fingerprint examples.tag_Serialize
         examples.always_creatable examples.manager callback_of_connect
         examples.server_name examples.keyA examples.world_same_key)
  = Returned None.
Proof.
  rewrite (recorded_key_is_accepted examples.tag_Fingerprint
             examples.tag_Serialize examples.always_creatable
             examples.manager callback_of_connect examples.server_name
             examples.keyA examples.world_same_key
             {| perm := mode_0600;
                lines := [Known examples.server_name examples.keyA;
                          Revoked examples.keyC] |}
             eq_refl eq_refl eq_refl eq_refl (or_introl eq_refl)).
  - reflexivity.
  - intros k [H|[H|[]]] _; [injection H as <-; reflexivity | discriminate].
Defined.

Lemma revoked_key_is_refused_witness :
  snd (verifyHostCallback examples.tag_Fingerprint examples.tag_Serialize
         examples.always_creatable examples.manager callback_of_GrabPubKey
         "other.example.com:22" examples.keyC examples.world_same_key)
  = Returned (Some (RevokedError examples.keyC)).
Proof.
  rewrite (revoked_key_is_refused examples.tag_Fingerprint
             examples.tag_Serialize examples.always_creatable
             examples.manager callback_of_GrabPubKey "other.example.com:22"
             examples.keyC examples.world_same_key
             {| perm := mode_0600;
                lines := [Known examples.server_name examples.keyA;
                          Revoked examples.keyC] |}
             eq_refl eq_refl eq_refl eq_refl).
  reflexivity.
Defined.

Lemma unparsable_store_is_fatal_witness :
  exists w',
    verifyHostCallback examples.tag_Fingerprint examples.tag_Serialize
      examples.always_creatable examples.manager callback_of_GrabPubKey
      examples.server_name examples.keyA examples.world_broken_store
    = (w', FatalExit) /\
    fs w' = fs examples.world_broken_store.
Proof.
  exact (unparsable_store_is_fatal examples.tag_Fingerprint
           examples.tag_Serialize examples.always_creatable
           examples.manager callback_of_GrabPubKey examples.server_name
           examples.keyA examples.world_broken_store
           {| perm := mode_0600;
              lines := [Known examples.server_name examples.keyB;
                        Malformed "garbage"] |}
           eq_refl eq_refl eq_refl).
Defined.

Lemma store_is_only_appended_to_witness :
  exists f',
    fs (fst (verifyHostCallback examples.tag_Fingerprint
               examples.tag_Serialize examples.always_creatable
               examples.manager callback_of_GrabPubKey
               examples.server_name examples.keyA
               examples.world_other_key))
      !! knownHosts examples.manager = Some f' /\
    perm f' = mode_0600.
Proof.
  destruct (store_is_only_appended_to examples.tag_Fingerprint
              examples.tag_Serialize examples.always_creatable
              examples.manager callback_of_GrabPubKey examples.server_name
              examples.keyA examples.world_other_key _ _
              (surjective_pairing _)) as (Hkeep & _).
  destruct (Hkeep (knownHosts examples.manager)
              {| perm := mode_0600;
                 lines := [Known examples.server_name examples.keyB] |}
              eq_refl) as (f' & Hf' & Hperm & _).
  exists f'. split; [exact Hf' | exact Hperm].
Defined.

Lemma grabbed_key_is_trusted_afterwards_witness :
  exists w1,
    GrabPubKey examples.tag_Fingerprint examples.tag_Serialize
      examples.always_creatable tun.String_ examples.manager
      (Some examples.keyA) examples.world_empty_store = (w1, Returned tt) /\
    exists w2,
      verifyHostCallback examples.tag_Fingerprint examples.tag_Serialize
        examples.always_creatable examples.manager callback_of_connect
        examples.server_name examples.keyA w1 = (w2, Returned None).
Proof.
  destruct (grabbed_key_is_trusted_afterwards examples.tag_Fingerprint
              examples.tag_Serialize examples.always_creatable tun.String_
              examples.manager examples.keyA examples.world_empty_store
              {| perm := mode_0600; lines := [] |}
              eq_refl eq_refl eq_refl eq_refl (fun k H => H))
    as (w1 & Hgrab & _ & (w2 & Hdial & _) & _).
  exists w1. split; [exact Hgrab|]. exists w2. exact Hdial.
Defined.

End sshc_store.

(** ** Dialing: directly and through jump hosts *)

Module sshc_dial.

Import sshc.

Lemma net_ops_app a b : net_ops (a ++ b) = (net_ops a + net_ops b)%nat.
Proof. unfold net_ops. now rewrite filter_app, length_app. Qed.

Lemma net_ops_log m evs : net_ops (DLog m :: evs) = net_ops evs.
Proof. reflexivity. Qed.

Lemma net_ops_net op evs : net_ops (DNet op :: evs) = S (net_ops evs).
Proof. reflexivity. Qed.

Lemma net_ops_nil : net_ops [] = 0%nat.
Proof. reflexivity. Qed.

Ltac count_ops :=
  repeat rewrite ?net_ops_app, ?net_ops_log, ?net_ops_net, ?net_ops_nil;
  cbn [length]; rewrite ?length_app; cbn [length]; try lia.

Section Dialing.

Variable ParseSSHUrl : string -> utils.sshUrl.
Variable HomeDir : string.
Variable Endpoint_String : tun.Endpoint -> string.

Local Abbreviation hop_step := (hop_step ParseSSHUrl Endpoint_String).
Local Abbreviation traverse := (traverse ParseSSHUrl Endpoint_String).

(** A hop after the first, both of its answers being good. *)
Lemma hop_step_later_ok idx c jh x id rest :
  exists evs,
    hop_step (S idx) (Some c) jh (Ok x :: Ok id :: rest)
    = (evs, Returned (inl (open_client id)), rest) /\
    net_ops evs = 2%nat.
Proof. eexists. split; reflexivity. Qed.

(** The hops after the first, all answers being good: two operations a
    hop. *)
Lemma traverse_later_ok hops : forall idx c ids rest,
  length ids = (2 * length hops)%nat ->
  exists evs c',
    traverse hops (S idx) (Some c) (map Ok ids ++ rest)
    = (evs, Returned (inl (Some c')), rest) /\
    net_ops evs = length ids.
Proof.
  induction hops as [|jh hops IH]; intros idx c ids rest Hlen.
  - destruct ids; [|discriminate]. exists [], c. split; reflexivity.
  - destruct ids as [|x [|id ids]]; simpl in Hlen; try lia.
    destruct (IH (S idx) (open_client id) ids rest ltac:(lia))
      as (evs & c' & Hrun & Hops).
    destruct (hop_step_later_ok idx c jh x id (map Ok ids ++ rest))
      as (evs0 & Hstep & Hops0).
    exists (evs0 ++ evs), c'. split.
    + change (map Ok (x :: id :: ids) ++ rest)
        with (Ok x :: Ok id :: (map Ok ids ++ rest)).
      cbn [sshc.traverse]. rewrite Hstep, Hrun. reflexivity.
    + rewrite net_ops_app, Hops0, Hops. reflexivity.
Qed.

(** The hops after the first, an answer being bad: the error is returned
    by the operation that got it. *)
Lemma traverse_later_err hops : forall idx c ids e rest,
  (length ids < 2 * length hops)%nat ->
  exists evs,
    traverse hops (S idx) (Some c) (map Ok ids ++ Err e :: rest)
    = (evs, Returned (inr e), rest) /\
    net_ops evs = S (length ids).
Proof.
  induction hops as [|jh hops IH]; intros idx c ids e rest Hlen;
    [simpl in Hlen; lia|].
  destruct ids as [|x [|id ids]].
  - eexists. split; reflexivity.
  - eexists. split; reflexivity.
  - simpl in Hlen.
    destruct (IH (S idx) (open_client id) ids e rest ltac:(lia))
      as (evs & Hrun & Hops).
    destruct (hop_step_later_ok idx c jh x id
                (map Ok ids ++ Err e :: rest)) as (evs0 & Hstep & Hops0).
    exists (evs0 ++ evs). split.
    + change (map Ok (x :: id :: ids) ++ Err e :: rest)
        with (Ok x :: Ok id :: (map Ok ids ++ Err e :: rest)).
      cbn [sshc.traverse]. rewrite Hstep, Hrun. reflexivity.
    + rewrite net_ops_app, Hops0, Hops. reflexivity.
Qed.




(** X20.  [jumpHostConnect] with every answer good.  The first jump host
    is dialled directly, with the user name of its URI; every later hop
    and at last the server cost a tunnelled dial and a handshake each; so
    a chain of [n] jump hosts makes [2n+1] operations on the network and
    uses as many answers.  The last operation is the handshake with the
    server under the user name of the manager, and the client returned is
    the one of that handshake. *)
Theorem jumpHostConnect_reaches_server
        (s : SshConnection) (server : tun.Endpoint) (user : string)
        (jh : JumpHostConf) (hops : list JumpHostConf)
        (id0 : nat) (ids : list nat) (x id : nat) (rest : list Reply) :
  jumpHosts s = jh :: hops ->
  length ids = (2 * length hops)%nat ->
  exists evs evs',
    jumpHostConnect ParseSSHUrl Endpoint_String s server user
      (Ok id0 :: map Ok ids ++ Ok x :: Ok id :: rest)
    = (evs, Returned (inl (open_client id)), rest) /\
    net_ops evs = (2 * length (jumpHosts s) + 1)%nat /\
    evs = DLog ("connecting to hop "
                +:+ hop_user ParseSSHUrl jh +:+ "@"
                +:+ hop_addr ParseSSHUrl Endpoint_String jh)
          :: DNet (SshDial (hop_addr ParseSSHUrl Endpoint_String jh)
                           (hop_user ParseSSHUrl jh))
          :: evs' /\
    last evs = Some (DNet (Handshake (Endpoint_String server) user)).
Proof.
  intros Hj Hlen. unfold jumpHostConnect. rewrite Hj.
  cbn [sshc.traverse]. unfold sshc.hop_step. simpl Nat.eqb. cbv iota.
  destruct (traverse_later_ok hops 0 (open_client id0) ids
              (Ok x :: Ok id :: rest) Hlen) as (evs & c' & Hrun & Hops).
  rewrite Hrun. cbn [tunnel_handshake].
  eexists. eexists. split; [reflexivity|]. split; [|split].
  - count_ops.
  - reflexivity.
  - match goal with
    | |- last (?l ++ [?a; ?b; ?c]) = _ =>
        change (l ++ [a; b; c]) with (l ++ ([a; b] ++ [c]))
    end.
    rewrite app_assoc. apply last_snoc.
Qed.

(** X21.  [jumpHostConnect] with a bad answer among the first [2n+1].  The
    function returns the error of that answer and no client; it does
    nothing on the network after the operation that failed, and the later
    answers are not used. *)
Theorem jumpHostConnect_stops_at_first_error
        (s : SshConnection) (server : tun.Endpoint) (user : string)
        (ids : list nat) (e : string) (rest : list Reply) :
  jumpHosts s <> [] ->
  (length ids < 2 * length (jumpHosts s) + 1)%nat ->
  exists evs,
    jumpHostConnect ParseSSHUrl Endpoint_String s server user
      (map Ok ids ++ Err e :: rest)
    = (evs, Returned (inr e), rest) /\
    net_ops evs = S (length ids).
Proof.
  unfold jumpHostConnect. destruct (jumpHosts s) as [|jh hops]; [congruence|].
  intros _ Hlen. cbn [length] in Hlen.
  cbn [sshc.traverse]. unfold sshc.hop_step. simpl Nat.eqb. cbv iota.
  destruct ids as [|id0 ids]; [eexists; split; reflexivity|].
  change (map Ok (id0 :: ids) ++ Err e :: rest)
    with (Ok id0 :: (map Ok ids ++ Err e :: rest)). cbv iota.
  cbn [length] in Hlen.
  destruct (Nat.lt_ge_cases (length ids) (2 * length hops)) as [Hlt|Hge].
  - destruct (traverse_later_err hops 0 (open_client id0) ids e rest Hlt)
      as (evs & Hrun & Hops).
    rewrite Hrun. eexists. split; [reflexivity|]. count_ops.
  - assert (Hsplit : exists a b,
              ids = a ++ b /\ length a = (2 * length hops)%nat /\
              (length b <= 1)%nat).
    { exists (take (2 * length hops) ids), (drop (2 * length hops) ids).
      rewrite take_drop, length_take, length_drop. repeat split; lia. }
    destruct Hsplit as (a & b & -> & Ha & Hb).
    rewrite map_app, <- app_assoc.
    destruct (traverse_later_ok hops 0 (open_client id0) a
                (map Ok b ++ Err e :: rest) Ha) as (evs & c' & Hrun & Hops).
    rewrite Hrun.
    destruct b as [|x [|y l]]; [| |simpl in Hb; lia];
      cbn [map app tunnel_handshake];
      (eexists; split; [reflexivity|]); count_ops.
Qed.


(** [directConnect] makes one operation on the network, the dial of
    the rendered server endpoint under the given user, whatever the
    answer; it returns the client of a good answer and the error of a bad
    one, and it logs the error. *)
Lemma directConnect_dials_once
        (server : tun.Endpoint) (user : string) (r : Reply)
        (rest : list Reply) :
  let '(evs, res, rest') :=
    directConnect Endpoint_String server user (r :: rest) in
  net_ops evs = 1%nat /\
  In (DNet (SshDial (Endpoint_String server) user)) evs /\
  rest' = rest /\
  res = match r with
        | Ok id => Returned (inl (open_client id))
        | Err e => Returned (inr e)
        end /\
  (forall e, r = Err e ->
             In (DLog ("dial INTO remote server error. " +:+ e)) evs).
Proof.
  unfold directConnect. destruct r as [id|e]; simpl;
    repeat split; auto; intros; try discriminate.
  match goal with H : Err _ = Err _ |- _ => injection H as <- end. auto.
Qed.

End Dialing.

Lemma jumpHostConnect_reaches_server_witness :
  exists evs,
    jumpHostConnect examples.total_ParseSSHUrl tun.String_
      examples.manager_with_jumps examples.endpoint1 "alice"
      [Ok 1; Ok 2; Ok 3; Ok 4; Ok 5]
    = (evs, Returned (inl (open_client 5)), []) /\
    net_ops evs = 5%nat.
Proof.
  destruct (jumpHostConnect_reaches_server examples.total_ParseSSHUrl
              tun.String_ examples.manager_with_jumps examples.endpoint1
              "alice" {| URI := "bob@bastion1:22" |}
              [ {| URI := "carol@bastion2:2200" |} ] 1 [2; 3]%nat 4 5 []
              eq_refl eq_refl) as (evs & evs' & Hrun & Hops & _).
  exists evs. split; [exact Hrun | exact Hops].
Defined.

Lemma jumpHostConnect_stops_at_first_error_witness :
  exists evs,
    jumpHostConnect examples.total_ParseSSHUrl tun.String_
      examples.manager_with_jumps examples.endpoint1 "alice"
      [Ok 1; Ok 2; Err "refused"; Ok 4; Ok 5]
    = (evs, Returned (inr "refused"), [Ok 4; Ok 5]) /\
    net_ops evs = 3%nat.
Proof.
  apply (jumpHostConnect_stops_at_first_error examples.total_ParseSSHUrl
           tun.String_ examples.manager_with_jumps examples.endpoint1
           "alice" [1; 2]%nat "refused" [Ok 4; Ok 5]).
  - discriminate.
  - simpl. lia.
Defined.

End sshc_dial.
